(** * finance-equalizer-server: a shallow embedding of [index.js]

    The server is an Express application over one MongoDB collection
    ([financeDB.finances]).  Every route is one driver call, so the model
    consists of

    - BSON values and documents as the driver and server see them;
    - the store (the collection, in natural order) and the driver calls
      the routes use: [insertOne], [find], [findOne], [deleteOne],
      [updateOne] and [aggregate];
    - the aggregation stages the two statistics routes use: [$group] with
      [$sum] accumulators, [$cond]/[$eq], [$match], [$sort], [$addFields]
      with [$dateFromString], and [$facet];
    - the route handlers, as one step function [handle] from a request and
      a store to the new store and the outcome of the handler.

    Numbers are modelled as [Z]: amounts are summed exactly. *)

From Stdlib Require Import ZArith List String Ascii Bool Lia.
From Stdlib Require Import Sorting.Sorted Sorting.Permutation.
Import ListNotations.

Local Open Scope string_scope.
Local Open Scope list_scope.
Local Open Scope Z_scope.
Local Set Warnings "-register-all".

(** ** BSON values and documents *)

Module Bson.

Inductive value : Type :=
| VNull
| VBool (b : bool)
| VNum (z : Z)
| VStr (s : string)
| VOid (h : string)            (** an ObjectId, as its 24 lower-case hex digits *)
| VDate (y m d : Z)            (** a BSON date, at day precision *)
| VArr (l : list value)
| VObj (fs : list (string * value)).

(** A document: its fields in order. *)
Definition doc := list (string * value).

Fixpoint value_eqb (a b : value) : bool :=
  match a, b with
  | VNull, VNull => true
  | VBool x, VBool y => Bool.eqb x y
  | VNum x, VNum y => Z.eqb x y
  | VStr x, VStr y => String.eqb x y
  | VOid x, VOid y => String.eqb x y
  | VDate y1 m1 d1, VDate y2 m2 d2 => Z.eqb y1 y2 && Z.eqb m1 m2 && Z.eqb d1 d2
  | VArr l1, VArr l2 =>
      (fix go (l1 l2 : list value) : bool :=
         match l1, l2 with
         | [], [] => true
         | x :: xs, y :: ys => value_eqb x y && go xs ys
         | _, _ => false
         end) l1 l2
  | VObj f1, VObj f2 =>
      (fix go (f1 f2 : list (string * value)) : bool :=
         match f1, f2 with
         | [], [] => true
         | (k1, x) :: xs, (k2, y) :: ys => String.eqb k1 k2 && value_eqb x y && go xs ys
         | _, _ => false
         end) f1 f2
  | _, _ => false
  end.

(** Field access [d.f]: the first field of that name ([None] is a missing
    field, JavaScript's [undefined]). *)
Fixpoint get (f : string) (d : doc) : option value :=
  match d with
  | [] => None
  | (k, v) :: d' => if String.eqb k f then Some v else get f d'
  end.

(** Setting a field, as [$set] and [$addFields] do: an existing field is
    overwritten in place, a new one is appended. *)
Fixpoint set_field (f : string) (v : value) (d : doc) : doc :=
  match d with
  | [] => [(f, v)]
  | (k, w) :: d' => if String.eqb k f then (k, v) :: d' else (k, w) :: set_field f v d'
  end.

(** Removing a field. *)
Definition remove_field (f : string) (d : doc) : doc :=
  filter (fun kv => negb (String.eqb (fst kv) f)) d.

(** [value_eqb] is BSON equality. *)
Lemma value_eqb_eq : forall a b, value_eqb a b = true -> a = b.
Proof.
  fix IH 1.
  intros [| x | x | x | x | y1 m1 d1 | l1 | f1] [| y | y | y | y | y2 m2 d2 | l2 | f2];
    simpl; intro H; try discriminate; try reflexivity.
  - apply Bool.eqb_prop in H; subst; reflexivity.
  - apply Z.eqb_eq in H; subst; reflexivity.
  - apply String.eqb_eq in H; subst; reflexivity.
  - apply String.eqb_eq in H; subst; reflexivity.
  - apply andb_prop in H as [H H3]; apply andb_prop in H as [H1 H2].
    apply Z.eqb_eq in H1, H2, H3; subst; reflexivity.
  - f_equal. revert l2 H. induction l1 as [| x xs IHl]; intros [| y ys] H;
      try discriminate; try reflexivity.
    apply andb_prop in H as [Hx Hxs].
    rewrite (IH _ _ Hx), (IHl _ Hxs); reflexivity.
  - f_equal. revert f2 H. induction f1 as [| [k1 x] xs IHl]; intros [| [k2 y] ys] H;
      try discriminate; try reflexivity.
    apply andb_prop in H as [H Hxs]; apply andb_prop in H as [Hk Hx].
    apply String.eqb_eq in Hk; subst.
    rewrite (IH _ _ Hx), (IHl _ Hxs); reflexivity.
Qed.

Lemma value_eqb_refl : forall a, value_eqb a a = true.
Proof.
  fix IH 1.
  intros [| x | x | x | x | y m d | l | f]; simpl;
    try reflexivity; try apply Bool.eqb_reflx; try apply Z.eqb_refl;
    try apply String.eqb_refl.
  - rewrite !Z.eqb_refl; reflexivity.
  - induction l as [| x xs IHl]; [reflexivity |].
    rewrite IH, IHl; reflexivity.
  - induction f as [| [k x] xs IHl]; [reflexivity |].
    rewrite String.eqb_refl, IH, IHl; reflexivity.
Qed.

Lemma value_eqb_spec : forall a b, reflect (a = b) (value_eqb a b).
Proof.
  intros a b; destruct (value_eqb a b) eqn:E; constructor.
  - apply value_eqb_eq; exact E.
  - intros <-; rewrite value_eqb_refl in E; discriminate.
Qed.

End Bson.

(** ** Errors, results and ObjectIds *)

Module Driver.
Import Bson.

(** The failures a handler can meet. *)
Inductive error : Type :=
| BSONError           (** [new ObjectId(s)] on a malformed [s] *)
| StoreUnavailable    (** the server cannot be reached *)
| DuplicateKey        (** E11000: an insert whose [_id] is already taken *)
| ConversionFailure   (** [$dateFromString] on a value it cannot parse *)
| TypeError.          (** a property read on [undefined] in the handler *)

Inductive result (A : Type) : Type :=
| Ok (a : A)
| Err (e : error).
Arguments Ok {A} a.
Arguments Err {A} e.

Definition bind {A B : Type} (r : result A) (k : A -> result B) : result B :=
  match r with
  | Ok a => k a
  | Err e => Err e
  end.

Notation "x <- r ;; k" := (bind r (fun x => k))
  (at level 61, r at next level, right associativity).

(** [Promise.all]-like traversal: the first failure wins. *)
Fixpoint map_result {A B : Type} (f : A -> result B) (l : list A) : result (list B) :=
  match l with
  | [] => Ok []
  | x :: xs => y <- f x ;; ys <- map_result f xs ;; Ok (y :: ys)
  end.

Definition is_hex (c : ascii) : bool :=
  let n := nat_of_ascii c in
  ((48 <=? n) && (n <=? 57))%nat || ((97 <=? n) && (n <=? 102))%nat
  || ((65 <=? n) && (n <=? 70))%nat.

Definition lower_hex (c : ascii) : ascii :=
  let n := nat_of_ascii c in
  if ((65 <=? n) && (n <=? 70))%nat then ascii_of_nat (n + 32) else c.

(** [new ObjectId(id)] on a string: 24 hex digits (either case) give the
    ObjectId; anything else throws a [BSONError]. *)
Definition is_oid_string (id : string) : bool :=
  let cs := list_ascii_of_string id in
  (List.length cs =? 24)%nat && forallb is_hex cs.

Definition ObjectId (id : string) : result value :=
  if is_oid_string id
  then Ok (VOid (string_of_list_ascii (map lower_hex (list_ascii_of_string id))))
  else Err BSONError.

(** ** The store *)

(** The collection, in natural (insertion) order, and whether the server
    answers. *)
Record store : Type := mkStore { docs : list doc; online : bool }.

Definition has_id (oid : value) (d : doc) : bool :=
  match get "_id" d with
  | Some v => value_eqb v oid
  | None => false
  end.

(** [collection.find().toArray()] *)
Definition find (st : store) : result (list doc) :=
  if online st then Ok (docs st) else Err StoreUnavailable.

(** [collection.findOne({ _id: oid })]: the first match, or [null]. *)
Definition findOne (st : store) (oid : value) : result (option doc) :=
  if online st then Ok (List.find (has_id oid) (docs st)) else Err StoreUnavailable.

(** [collection.insertOne(doc)].  The driver gives a document whose [_id]
    is [null] or [undefined] the freshly generated ObjectId [gen]; the
    server stores [_id] as the first field and refuses a taken [_id]. *)
Definition insertOne (st : store) (d : doc) (gen : string) : result (store * value) :=
  if online st then
    let id := match get "_id" d with
              | None | Some VNull => VOid gen
              | Some v => v
              end in
    let stored := ("_id", id) :: remove_field "_id" d in
    if existsb (has_id id) (docs st) then Err DuplicateKey
    else Ok (mkStore (docs st ++ [stored]) true, id)
  else Err StoreUnavailable.

Fixpoint delete_first (oid : value) (ds : list doc) : list doc * Z :=
  match ds with
  | [] => ([], 0)
  | d :: ds' => if has_id oid d then (ds', 1)
                else let (r, n) := delete_first oid ds' in (d :: r, n)
  end.

(** [collection.deleteOne({ _id: oid })]: the new store and [deletedCount]. *)
Definition deleteOne (st : store) (oid : value) : result (store * Z) :=
  if online st then
    let (ds, n) := delete_first oid (docs st) in Ok (mkStore ds true, n)
  else Err StoreUnavailable.

(** Applying a [$set] document to one stored document. *)
Definition apply_set (sets : list (string * value)) (d : doc) : doc :=
  fold_left (fun acc kv => set_field (fst kv) (snd kv) acc) sets d.

Fixpoint update_first (oid : value) (sets : list (string * value)) (ds : list doc)
  : list doc * (Z * Z) :=
  match ds with
  | [] => ([], (0, 0))
  | d :: ds' =>
      if has_id oid d then
        let d' := apply_set sets d in
        (d' :: ds', (1, if value_eqb (VObj d) (VObj d') then 0 else 1))
      else let (r, n) := update_first oid sets ds' in (d :: r, n)
  end.

(** [collection.updateOne({ _id: oid }, { $set: sets })]: the new store,
    [matchedCount] and [modifiedCount]. *)
Definition updateOne (st : store) (oid : value) (sets : list (string * value))
  : result (store * (Z * Z)) :=
  if online st then
    let (ds, n) := update_first oid sets (docs st) in Ok (mkStore ds true, n)
  else Err StoreUnavailable.

End Driver.

(** ** The aggregation stages *)

Module Agg.
Import Bson Driver.

(** *** [$dateFromString] with [format: "%Y-%m-%d"] *)

Definition digit (c : ascii) : option Z :=
  let n := nat_of_ascii c in
  if ((48 <=? n) && (n <=? 57))%nat then Some (Z.of_nat n - 48) else None.

Definition is_leap (y : Z) : bool :=
  (Z.eqb (y mod 4) 0 && negb (Z.eqb (y mod 100) 0)) || Z.eqb (y mod 400) 0.

Definition days_in_month (y m : Z) : Z :=
  if Z.eqb m 2 then (if is_leap y then 29 else 28)
  else if Z.eqb m 4 || Z.eqb m 6 || Z.eqb m 9 || Z.eqb m 11 then 30
  else 31.

(** [timelib_get_nr]: up to [max] digits, read greedily, as a number,
    with the rest of the input. *)
Fixpoint get_digits (max : nat) (acc : Z) (cs : list ascii) : Z * list ascii :=
  match max, cs with
  | S k, c :: cs' =>
      match digit c with
      | Some v => get_digits k (10 * acc + v) cs'
      | None => (acc, cs)
      end
  | _, _ => (acc, cs)
  end.

(** A numeric field of the format: [TIMELIB_CHECK_NUMBER] (the next
    character must be a digit), then [timelib_get_nr(&ptr, max)]. *)
Definition get_nr (max : nat) (cs : list ascii) : option (Z * list ascii) :=
  match cs with
  | c :: _ => match digit c with
              | Some _ => Some (get_digits max 0 cs)
              | None => None
              end
  | [] => None
  end.

(** [timelib_parse_from_format] on ["%Y-%m-%d"]: [%Y] reads one to four
    digits, [%m] and [%d] one or two, each dash must match, trailing data
    is an error, and an invalid date (the warning "The parsed date was
    invalid") is refused. *)
Definition parse_ymd (s : string) : option (Z * Z * Z) :=
  match get_nr 4 (list_ascii_of_string s) with
  | Some (y, c1 :: r1) =>
      if Ascii.eqb c1 "-"%char then
        match get_nr 2 r1 with
        | Some (m, c2 :: r2) =>
            if Ascii.eqb c2 "-"%char then
              match get_nr 2 r2 with
              | Some (d, []) =>
                  if (1 <=? m) && (m <=? 12) && (1 <=? d) && (d <=? days_in_month y m)
                  then Some (y, m, d) else None
              | _ => None
              end
            else None
        | _ => None
        end
      else None
  | _ => None
  end.

Example parse_ymd_samples :
  parse_ymd "2024-01-15" = Some (2024, 1, 15) /\
  parse_ymd "2024-1-5" = Some (2024, 1, 5) /\
  parse_ymd "2024-02-29" = Some (2024, 2, 29) /\
  parse_ymd "2023-02-29" = None /\
  parse_ymd "2024-13-01" = None /\
  parse_ymd "2024-01-150" = None /\
  parse_ymd "2024/01/15" = None /\
  parse_ymd "" = None.
Proof. repeat split. Qed.

(** [{ $dateFromString: { dateString: "$date", format: "%Y-%m-%d" } }]:
    a missing or [null] date string gives [null]; a string that does not
    parse, or a value that is not a string, fails the aggregation. *)
Definition dateFromString (v : option value) : result value :=
  match v with
  | None | Some VNull => Ok VNull
  | Some (VStr s) =>
      match parse_ymd s with
      | Some (y, m, d) => Ok (VDate y m d)
      | None => Err ConversionFailure
      end
  | Some _ => Err ConversionFailure
  end.

(** [$year] and [$month] of a date; [null] (here [None]) on [null]. *)
Definition year_of (v : option value) : option Z :=
  match v with Some (VDate y _ _) => Some y | _ => None end.
Definition month_of (v : option value) : option Z :=
  match v with Some (VDate _ m _) => Some m | _ => None end.

(** *** Expressions used by the accumulators *)

(** [$sum] adds numbers and ignores every other value, a missing one too. *)
Definition sum_arg (v : option value) : Z :=
  match v with Some (VNum z) => z | _ => 0 end.

(** [{ $eq: ["$type", t] }] in an expression: strict BSON equality. *)
Definition type_eq (t : string) (d : doc) : bool :=
  match get "type" d with
  | Some v => value_eqb v (VStr t)
  | None => false
  end.

(** [{ $cond: [{ $eq: ["$type", t] }, "$amount", 0] }] as [$sum] sees it. *)
Definition cond_amount (t : string) (d : doc) : Z :=
  if type_eq t d then sum_arg (get "amount" d) else 0.

(** [{ $match: { type: t } }] in a query: the field equals [t], or is an
    array with an element equal to [t]. *)
Definition match_type (t : string) (d : doc) : bool :=
  match get "type" d with
  | Some (VArr l) => value_eqb (VArr l) (VStr t) || existsb (fun v => value_eqb v (VStr t)) l
  | Some v => value_eqb v (VStr t)
  | None => false
  end.

(** [$group] keys on ["$category"]: a missing field groups with [null]. *)
Definition category_key (d : doc) : value :=
  match get "category" d with Some v => v | None => VNull end.

End Agg.

(** ** [$group]: one running accumulator per distinct key

    The server keeps one accumulator per key met so far and folds each
    input document into the accumulator of its key.  The model keeps the
    groups in order of first appearance; the server promises no order, so
    the theorems below do not depend on it. *)

Module Group.
Section Group.
Context {D K A : Type}.
Variable eqb : K -> K -> bool.
Hypothesis eqb_spec : forall x y, reflect (x = y) (eqb x y).
Variable key : D -> K.
Variable init : A.
Variable step : A -> D -> A.

Fixpoint accumulate (k : K) (d : D) (gs : list (K * A)) : list (K * A) :=
  match gs with
  | [] => [(k, step init d)]
  | (k', a) :: gs' =>
      if eqb k' k then (k', step a d) :: gs' else (k', a) :: accumulate k d gs'
  end.

Definition group (ds : list D) : list (K * A) :=
  fold_left (fun gs d => accumulate (key d) d gs) ds [].

Fixpoint glookup (k : K) (gs : list (K * A)) : option A :=
  match gs with
  | [] => None
  | (k', a) :: gs' => if eqb k' k then Some a else glookup k gs'
  end.

(** The documents of one group, in input order. *)
Definition members (k : K) (ds : list D) : list D :=
  filter (fun d => eqb k (key d)) ds.

Lemma eqb_true : forall x y, eqb x y = true <-> x = y.
Proof. intros x y; destruct (eqb_spec x y); split; congruence. Qed.

Lemma eqb_refl : forall x, eqb x x = true.
Proof. intro x; apply eqb_true; reflexivity. Qed.

Lemma eqb_sym : forall x y, eqb x y = eqb y x.
Proof.
  intros x y; destruct (eqb_spec x y), (eqb_spec y x); congruence.
Qed.

Lemma glookup_accumulate : forall k k' d gs,
  glookup k (accumulate k' d gs) =
  if eqb k' k then
    Some (step (match glookup k gs with Some a => a | None => init end) d)
  else glookup k gs.
Proof.
  intros k k' d gs; induction gs as [| [k0 a] gs IH]; simpl.
  - rewrite eqb_sym; destruct (eqb k k'); reflexivity.
  - destruct (eqb_spec k0 k') as [-> | Hne]; simpl.
    + destruct (eqb k' k); reflexivity.
    + destruct (eqb_spec k0 k) as [-> | Hne'].
      * destruct (eqb_spec k' k); [congruence | reflexivity].
      * rewrite IH; reflexivity.
Qed.

Lemma keys_accumulate : forall k d gs,
  map fst (accumulate k d gs) =
  if existsb (fun k' => eqb k' k) (map fst gs) then map fst gs else map fst gs ++ [k].
Proof.
  intros k d gs; induction gs as [| [k0 a] gs IH]; simpl; [reflexivity |].
  destruct (eqb k0 k); simpl; [reflexivity |].
  rewrite IH; destruct (existsb _ _); reflexivity.
Qed.

Lemma NoDup_keys_accumulate : forall k d gs,
  NoDup (map fst gs) -> NoDup (map fst (accumulate k d gs)).
Proof.
  intros k d gs H; rewrite keys_accumulate.
  destruct (existsb _ _) eqn:E; [exact H |].
  apply NoDup_app; [exact H | constructor; [intros [] | constructor] |].
  intros x Hx [Heq | []]; subst x.
  assert (Hin : existsb (fun k' => eqb k' k) (map fst gs) = true)
    by (apply existsb_exists; exists k; split; [exact Hx | apply eqb_refl]).
  congruence.
Qed.

Lemma NoDup_keys_group : forall ds, NoDup (map fst (group ds)).
Proof.
  intro ds; unfold group.
  assert (Hg : forall gs, NoDup (map fst gs) ->
            NoDup (map fst (fold_left (fun gs d => accumulate (key d) d gs) ds gs))).
  { induction ds as [| d ds IH]; intros gs Hgs; simpl; [exact Hgs |].
    apply IH, NoDup_keys_accumulate, Hgs. }
  apply Hg; constructor.
Qed.

Lemma filter_existsb_false : forall (f : D -> bool) l,
  existsb f l = false -> filter f l = [].
Proof.
  intros f l; induction l as [| x l IH]; simpl; [reflexivity |].
  destruct (f x); simpl; [discriminate | exact IH].
Qed.

(** The accumulator of every key is the fold of [step] over exactly the
    documents of that key, in input order. *)
Lemma glookup_group : forall ds k,
  glookup k (group ds) =
  if existsb (fun d => eqb k (key d)) ds
  then Some (fold_left step (members k ds) init) else None.
Proof.
  intros ds k; induction ds as [| d ds IH] using rev_ind; [reflexivity |].
  unfold group in *; rewrite fold_left_app; simpl.
  rewrite glookup_accumulate, IH, existsb_app; unfold members in *;
    rewrite filter_app, fold_left_app; simpl.
  rewrite (eqb_sym (key d) k).
  destruct (eqb k (key d)) eqn:Ek; simpl.
  - rewrite orb_true_r.
    destruct (existsb _ ds) eqn:E; [reflexivity |].
    rewrite (filter_existsb_false _ _ E); reflexivity.
  - rewrite orb_false_r; reflexivity.
Qed.

Lemma glookup_In : forall k a gs,
  NoDup (map fst gs) -> In (k, a) gs -> glookup k gs = Some a.
Proof.
  intros k a gs; induction gs as [| [k0 a0] gs IH]; simpl; [intros _ [] |].
  intros Hnd [Heq | Hin]; inversion Hnd as [| ? ? Hnotin Hnd']; subst.
  - inversion Heq; subst; rewrite eqb_refl; reflexivity.
  - destruct (eqb_spec k0 k) as [-> | Hne]; [| exact (IH Hnd' Hin)].
    exfalso; apply Hnotin; apply (in_map fst) in Hin; exact Hin.
Qed.

Lemma glookup_Some_In : forall k a gs, glookup k gs = Some a -> In (k, a) gs.
Proof.
  intros k a gs; induction gs as [| [k0 a0] gs IH]; simpl; [discriminate |].
  destruct (eqb_spec k0 k) as [-> | Hne]; intro H; [inversion H; left; reflexivity |].
  right; exact (IH H).
Qed.

(** Every output group is the fold of [step] over the documents of its
    key, and there is at least one such document. *)
Lemma group_In : forall ds k a,
  In (k, a) (group ds) ->
  (exists d, In d ds /\ key d = k) /\ a = fold_left step (members k ds) init.
Proof.
  intros ds k a Hin.
  pose proof (glookup_In _ _ _ (NoDup_keys_group ds) Hin) as H.
  rewrite glookup_group in H.
  destruct (existsb _ ds) eqn:E; [| discriminate].
  inversion H; subst; split; [| reflexivity].
  apply existsb_exists in E as [d [Hd Hk]].
  exists d; split; [exact Hd | symmetry; apply eqb_true; exact Hk].
Qed.

(** Every key of the input has its group. *)
Lemma group_complete : forall ds d, In d ds ->
  In (key d, fold_left step (members (key d) ds) init) (group ds).
Proof.
  intros ds d Hd; apply glookup_Some_In; rewrite glookup_group.
  replace (existsb (fun d' => eqb (key d) (key d')) ds) with true; [reflexivity |].
  symmetry; apply existsb_exists; exists d; split; [exact Hd | apply eqb_refl].
Qed.

Lemma group_nil : group [] = [].
Proof. reflexivity. Qed.

End Group.
End Group.

(** ** [$sort]

    The server's sort is a sorted permutation of its input; which of two
    equal keys comes first is not specified.  Insertion sort is one such
    sort. *)

Module Sort.
Section Sort.
Context {A : Type}.
Variable le : A -> A -> bool.
Hypothesis le_total : forall x y, le x y = false -> le y x = true.

Fixpoint insert_by (x : A) (l : list A) : list A :=
  match l with
  | [] => [x]
  | y :: l' => if le x y then x :: l else y :: insert_by x l'
  end.

Fixpoint sort_by (l : list A) : list A :=
  match l with
  | [] => []
  | x :: l' => insert_by x (sort_by l')
  end.

Definition le_rel (x y : A) : Prop := le x y = true.

Lemma insert_by_sorted : forall x l,
  Sorted le_rel l -> Sorted le_rel (insert_by x l).
Proof.
  intros x l Hs; induction Hs as [| y l Hs IH Hhd]; simpl.
  - repeat constructor.
  - destruct (le x y) eqn:Hxy.
    + constructor; [constructor; assumption | constructor; exact Hxy].
    + constructor; [exact IH |].
      destruct l as [| z l]; simpl.
      * constructor; apply le_total; exact Hxy.
      * inversion Hhd; subst.
        destruct (le x z); constructor; [apply le_total; exact Hxy | assumption].
Qed.

Lemma sort_by_sorted : forall l, Sorted le_rel (sort_by l).
Proof.
  intro l; induction l as [| x l IH]; simpl; [constructor | apply insert_by_sorted, IH].
Qed.

Lemma insert_by_perm : forall x l, Permutation (x :: l) (insert_by x l).
Proof.
  intros x l; induction l as [| y l IH]; simpl; [reflexivity |].
  destruct (le x y); [reflexivity |].
  transitivity (y :: x :: l); [constructor | constructor; exact IH].
Qed.

Lemma sort_by_perm : forall l, Permutation l (sort_by l).
Proof.
  intro l; induction l as [| x l IH]; simpl; [reflexivity |].
  transitivity (x :: sort_by l); [constructor; exact IH | apply insert_by_perm].
Qed.

End Sort.
End Sort.

(** ** The two statistics pipelines *)

Module Stats.
Import Bson Driver Agg.

(** *** [/finance-stats] *)

(** A [totalStats] row: [{ _id: null, totalExpense, totalIncome,
    totalTransactions }]. *)
Record total_row : Type :=
  mkTotalRow { t_totalExpense : Z; t_totalIncome : Z; t_totalTransactions : Z }.

(** A [categoryStats] row: [{ _id: category, totalExpense, totalIncome }]. *)
Record cat_row : Type :=
  mkCatRow { c_id : value; c_totalExpense : Z; c_totalIncome : Z }.

(** A [monthlyStats] row: [{ _id: { year, month }, totalExpense,
    totalIncome }]; [None] is [null]. *)
Record month_row : Type :=
  mkMonthRow { m_year : option Z; m_month : option Z;
               m_totalExpense : Z; m_totalIncome : Z }.

(** The single document [$facet] outputs. *)
Record facets : Type :=
  mkFacets { totalStats : list total_row; categoryStats : list cat_row;
             monthlyStats : list month_row }.

(** The two conditional sums, [{ $sum: { $cond: [...] } }], as one
    accumulator. *)
Definition sums_step (acc : Z * Z) (d : doc) : Z * Z :=
  (fst acc + cond_amount "expense" d, snd acc + cond_amount "income" d).

(** The same, with [totalTransactions: { $sum: 1 }]. *)
Definition totals_step (acc : Z * Z * Z) (d : doc) : Z * Z * Z :=
  let '(e, i, n) := acc in
  (e + cond_amount "expense" d, i + cond_amount "income" d, n + 1).

Definition unit_eqb (_ _ : unit) : bool := true.

(** [totalStats: [{ $group: { _id: null, ... } }]] *)
Definition totalStats_facet (ds : list doc) : list total_row :=
  map (fun g => let '(_, (e, i, n)) := g in mkTotalRow e i n)
      (Group.group unit_eqb (fun _ => tt) (0, 0, 0) totals_step ds).

(** [categoryStats: [{ $group: { _id: "$category", ... } }]] *)
Definition categoryStats_facet (ds : list doc) : list cat_row :=
  map (fun g => let '(k, (e, i)) := g in mkCatRow k e i)
      (Group.group value_eqb category_key (0, 0) sums_step ds).

(** [$addFields: { parsedDate: { $dateFromString: ... } }] *)
Definition add_parsedDate (d : doc) : result doc :=
  v <- dateFromString (get "date" d) ;; Ok (set_field "parsedDate" v d).

(** [_id: { year: { $year: "$parsedDate" }, month: { $month: "$parsedDate" } }] *)
Definition month_key (d : doc) : option Z * option Z :=
  (year_of (get "parsedDate" d), month_of (get "parsedDate" d)).

Definition month_key_eqb (a b : option Z * option Z) : bool :=
  match a, b with
  | (y1, m1), (y2, m2) =>
      match y1, y2 with
      | None, None => true | Some x, Some y => Z.eqb x y | _, _ => false
      end &&
      match m1, m2 with
      | None, None => true | Some x, Some y => Z.eqb x y | _, _ => false
      end
  end.

(** BSON order on [null] and numbers: [null] first. *)
Definition opt_lt (a b : option Z) : bool :=
  match a, b with
  | None, Some _ => true
  | Some x, Some y => Z.ltb x y
  | _, _ => false
  end.

Definition opt_eqb (a b : option Z) : bool :=
  match a, b with
  | None, None => true | Some x, Some y => Z.eqb x y | _, _ => false
  end.

(** [$sort: { "_id.year": 1, "_id.month": 1 }] *)
Definition month_le (r s : month_row) : bool :=
  opt_lt (m_year r) (m_year s)
  || (opt_eqb (m_year r) (m_year s)
      && (opt_lt (m_month r) (m_month s) || opt_eqb (m_month r) (m_month s))).

(** [monthlyStats: [$addFields, $group, $sort]]; a failing
    [$dateFromString] fails the whole facet. *)
Definition monthlyStats_facet (ds : list doc) : result (list month_row) :=
  ds' <- map_result add_parsedDate ds ;;
  Ok (Sort.sort_by month_le
        (map (fun g => let '((y, m), (e, i)) := g in mkMonthRow y m e i)
             (Group.group month_key_eqb month_key (0, 0) sums_step ds'))).

(** [financeCollection.aggregate([{ $facet: ... }]).toArray()]: [$facet]
    outputs exactly one document. *)
Definition finance_aggregate (st : store) : result (list facets) :=
  ds <- find st ;;
  ms <- monthlyStats_facet ds ;;
  Ok [mkFacets (totalStats_facet ds) (categoryStats_facet ds) ms].

(** The response the handler builds. *)
Record finance_response : Type :=
  mkFinanceResponse { totalExpense : Z; totalIncome : Z; totalTransactions : Z;
                      r_categoryStats : list cat_row; r_monthlyStats : list month_row }.

(** [financeStats[0].totalStats[0].totalExpense] and its siblings: reading
    a property of [undefined] throws a [TypeError]. *)
Definition format_response (fs : list facets) : result finance_response :=
  match fs with
  | [] => Err TypeError
  | f :: _ =>
      match totalStats f with
      | [] => Err TypeError
      | t :: _ =>
          Ok (mkFinanceResponse (t_totalExpense t) (t_totalIncome t)
                (t_totalTransactions t) (categoryStats f) (monthlyStats f))
      end
  end.

(** The body of the [try] block of [/finance-stats]. *)
Definition finance_stats (st : store) : result finance_response :=
  fs <- finance_aggregate st ;; format_response fs.

(** *** [/category-stats] *)

(** A ranking row: [{ _id: category, categoryCount, totalAmount }]. *)
Record rank_row : Type :=
  mkRankRow { r_id : value; categoryCount : Z; totalAmount : Z }.

(** [categoryCount: { $sum: 1 }, totalAmount: { $sum: "$amount" }] *)
Definition rank_step (acc : Z * Z) (d : doc) : Z * Z :=
  (fst acc + 1, snd acc + sum_arg (get "amount" d)).

(** [$sort: { totalAmount: -1 }] *)
Definition rank_le (r s : rank_row) : bool := Z.leb (totalAmount s) (totalAmount r).

Definition rank_rows (t : string) (ds : list doc) : list rank_row :=
  map (fun g => let '(k, (n, a)) := g in mkRankRow k n a)
      (Group.group value_eqb category_key (0, 0) rank_step (filter (match_type t) ds)).

(** [aggregate([{ $match: { type: t } }, { $group: ... }, { $sort: ... }])] *)
Definition rank_pipeline (t : string) (st : store) : result (list rank_row) :=
  ds <- find st ;; Ok (Sort.sort_by rank_le (rank_rows t ds)).

(** The body of the [try] block of [/category-stats]. *)
Definition category_stats (st : store) : result (list rank_row * list rank_row) :=
  expenseStats <- rank_pipeline "expense" st ;;
  incomeStats <- rank_pipeline "income" st ;;
  Ok (expenseStats, incomeStats).

End Stats.

(** ** The routes *)

Module Server.
Import Bson Driver Stats.

(** What [res.send] puts on the wire. *)
Inductive body : Type :=
| BText (s : string)
| BInsertResult (acknowledged : bool) (insertedId : value)
| BDocs (ds : list doc)
| BDoc (d : option doc)
| BDeleteResult (acknowledged : bool) (deletedCount : Z)
| BUpdateResult (acknowledged : bool) (matchedCount modifiedCount : Z)
| BFinanceStats (r : finance_response)
| BCategoryStats (expenseStats incomeStats : list rank_row)
| BError (msg : string).

(** What a handler does: answer, or throw.  A throw inside an [async]
    handler rejects its promise; the handler itself sends nothing. *)
Inductive outcome : Type :=
| Respond (status : Z) (b : body)
| Raise (e : error).

(** A request with what the handler reads from it: the parsed JSON body,
    [req.params.id], and for [POST /finance] the ObjectId the driver
    generates for the insert. *)
Inductive request : Type :=
| GetRoot
| PostFinance (body : doc) (gen : string)
| GetFinances
| GetFinance (id : string)
| DeleteFinance (id : string)
| PatchFinance (id : string) (data : option doc)
| GetFinanceStats
| GetCategoryStats.

(** [data?.f] *)
Definition opt_get (f : string) (data : option doc) : option value :=
  match data with Some d => get f d | None => None end.

(** The driver serialises an [undefined] value of a [$set] document as
    [null] ([ignoreUndefined] is off by default). *)
Definition serialize (v : option value) : value :=
  match v with Some w => w | None => VNull end.

(** The [$set] document of [PATCH /finance/:id]. *)
Definition patch_sets (data : option doc) : list (string * value) :=
  [("title", serialize (opt_get "title" data));
   ("amount", serialize (opt_get "amount" data));
   ("description", serialize (opt_get "description" data));
   ("date", serialize (opt_get "date" data));
   ("category", serialize (opt_get "category" data));
   ("type", serialize (opt_get "type" data))].

Definition handle (req : request) (st : store) : store * outcome :=
  match req with
  | GetRoot => (st, Respond 200 (BText "running"))
  | PostFinance d gen =>
      match insertOne st d gen with
      | Ok (st', id) => (st', Respond 200 (BInsertResult true id))
      | Err e => (st, Raise e)
      end
  | GetFinances =>
      match find st with
      | Ok ds => (st, Respond 200 (BDocs ds))
      | Err e => (st, Raise e)
      end
  | GetFinance id =>
      match ObjectId id with
      | Err e => (st, Raise e)
      | Ok oid =>
          match findOne st oid with
          | Ok r => (st, Respond 200 (BDoc r))
          | Err e => (st, Raise e)
          end
      end
  | DeleteFinance id =>
      match ObjectId id with
      | Err e => (st, Raise e)
      | Ok oid =>
          match deleteOne st oid with
          | Ok (st', n) => (st', Respond 200 (BDeleteResult true n))
          | Err e => (st, Raise e)
          end
      end
  | PatchFinance id data =>
      let sets := patch_sets data in
      match ObjectId id with
      | Err e => (st, Raise e)
      | Ok oid =>
          match updateOne st oid sets with
          | Ok (st', (m, n)) => (st', Respond 200 (BUpdateResult true m n))
          | Err e => (st, Raise e)
          end
      end
  | GetFinanceStats =>
      match finance_stats st with
      | Ok r => (st, Respond 200 (BFinanceStats r))
      | Err _ => (st, Respond 500 (BError "Error fetching finance stats"))
      end
  | GetCategoryStats =>
      match category_stats st with
      | Ok (e, i) => (st, Respond 200 (BCategoryStats e i))
      | Err _ => (st, Respond 500 (BError "Error fetching category stats"))
      end
  end.

(** The spec's scenario: one expense and one income in January 2024. *)
Definition rec_food : doc :=
  [("_id", VOid "000000000000000000000001"); ("amount", VNum 100);
   ("type", VStr "expense"); ("category", VStr "food"); ("date", VStr "2024-01-15")].
Definition rec_salary : doc :=
  [("_id", VOid "000000000000000000000002"); ("amount", VNum 50);
   ("type", VStr "income"); ("category", VStr "salary"); ("date", VStr "2024-01-20")].

Example scenario_finance_stats :
  handle GetFinanceStats (mkStore [rec_food; rec_salary] true) =
  (mkStore [rec_food; rec_salary] true,
   Respond 200 (BFinanceStats
     (mkFinanceResponse 100 50 2
        [mkCatRow (VStr "food") 100 0; mkCatRow (VStr "salary") 0 50]
        [mkMonthRow (Some 2024) (Some 1) 100 50]))).
Proof. reflexivity. Qed.

Definition scenario_store : store := mkStore [rec_food; rec_salary] true.

Definition scenario_response : finance_response :=
  mkFinanceResponse 100 50 2
    [mkCatRow (VStr "food") 100 0; mkCatRow (VStr "salary") 0 50]
    [mkMonthRow (Some 2024) (Some 1) 100 50].

(** A record of another type, with no category and no amount. *)
Definition rec_transfer : doc :=
  [("_id", VOid "000000000000000000000003"); ("type", VStr "transfer");
   ("date", VStr "2024-02-01")].

Definition mixed_store : store := mkStore [rec_food; rec_transfer; rec_salary] true.

Definition mixed_response : finance_response :=
  mkFinanceResponse 100 50 3
    [mkCatRow (VStr "food") 100 0; mkCatRow VNull 0 0; mkCatRow (VStr "salary") 0 50]
    [mkMonthRow (Some 2024) (Some 1) 100 50; mkMonthRow (Some 2024) (Some 2) 0 0].


(** A record with a [null] date. *)
Definition rec_undated : doc :=
  [("_id", VOid "000000000000000000000004"); ("amount", VNum 10);
   ("type", VStr "expense"); ("category", VStr "misc"); ("date", VNull)].

(** A record whose date names a thirteenth month. *)
Definition rec_bad_date : doc :=
  [("_id", VOid "000000000000000000000005"); ("amount", VNum 10);
   ("type", VStr "expense"); ("date", VStr "2024-13-01")].

(** A date with a one-digit month and day parses, and its record is
    counted in its month. *)
Example one_digit_date_answered :
  handle GetFinanceStats
    (mkStore [[("_id", VOid "000000000000000000000006"); ("amount", VNum 3);
               ("type", VStr "expense"); ("date", VStr "2024-1-5")]] true) =
  (mkStore [[("_id", VOid "000000000000000000000006"); ("amount", VNum 3);
             ("type", VStr "expense"); ("date", VStr "2024-1-5")]] true,
   Respond 200 (BFinanceStats
     (mkFinanceResponse 3 0 1 [mkCatRow VNull 3 0] [mkMonthRow (Some 2024) (Some 1) 3 0]))).
Proof. reflexivity. Qed.

End Server.

(** ** The spec's vocabulary

    The sets of records the spec's sentences talk about, written on the
    stored records (not on the pipeline's intermediate documents). *)

Module Reading.
Import Bson Driver Agg Stats.

(** The conditional sum of the spec: the amounts of the records of type
    [t], as [$sum] counts them. *)
Fixpoint sum_cond (t : string) (ds : list doc) : Z :=
  match ds with
  | [] => 0
  | d :: ds' => cond_amount t d + sum_cond t ds'
  end.

(** The records of one category. *)
Definition in_category (k : value) (ds : list doc) : list doc :=
  filter (fun d => value_eqb k (category_key d)) ds.

(** The (year, month) a record's [date] parses to; [(null, null)] when it
    does not parse. *)
Definition record_month (d : doc) : option Z * option Z :=
  match get "date" d with
  | Some (VStr s) =>
      match parse_ymd s with
      | Some (y, m, _) => (Some y, Some m)
      | None => (None, None)
      end
  | _ => (None, None)
  end.

(** The records whose date falls in the month [k]. *)
Definition in_month (k : option Z * option Z) (ds : list doc) : list doc :=
  filter (fun d => month_key_eqb k (record_month d)) ds.

(** A record's date is a string that [$dateFromString] parses under
    [%Y-%m-%d]; every strict [YYYY-MM-DD] date is one. *)
Definition date_parses (d : doc) : Prop :=
  exists s y m dd, get "date" d = Some (VStr s) /\ parse_ymd s = Some (y, m, dd).

(** A record's date is missing or [null]. *)
Definition date_absent (d : doc) : Prop :=
  get "date" d = None \/ get "date" d = Some VNull.

(** A record's date is there but does not parse. *)
Definition date_unparseable (d : doc) : Prop :=
  ~ date_parses d /\ ~ date_absent d.

(** Ascending by (year, month), on rows whose year and month are numbers. *)
Definition ym_le (r s : month_row) : Prop :=
  match m_year r, m_month r, m_year s, m_month s with
  | Some y1, Some m1, Some y2, Some m2 => y1 < y2 \/ (y1 = y2 /\ m1 <= m2)
  | _, _, _, _ => False
  end.

(** The records of type [t] in the sense of [{ $match: { type: t } }]. *)
Definition of_type (t : string) (ds : list doc) : list doc := filter (match_type t) ds.

(** The amounts of a list of records, as [$sum] counts them. *)
Fixpoint sum_amount (ds : list doc) : Z :=
  match ds with
  | [] => 0
  | d :: ds' => sum_arg (get "amount" d) + sum_amount ds'
  end.

(** The six fields [PATCH /finance/:id] sets. *)
Definition mutable_fields : list string :=
  ["title"; "amount"; "description"; "date"; "category"; "type"].

(** The sum of a list of numbers. *)
Fixpoint sumZ (l : list Z) : Z :=
  match l with
  | [] => 0
  | x :: l' => x + sumZ l'
  end.

(** The store's [_id] index: every document has an [_id], and no two
    documents share one. *)
Definition ids_ok (ds : list doc) : Prop :=
  Forall (fun v => v <> None) (map (get "_id") ds) /\ NoDup (map (get "_id") ds).

End Reading.

(** ** Facts about the model *)

Module Facts.
Import Bson Driver Agg Stats Server Reading.

Lemma get_set_field : forall f g v d,
  get f (set_field g v d) = if String.eqb g f then Some v else get f d.
Proof.
  intros f g v d; induction d as [| [k w] d IH]; simpl; [reflexivity |].
  destruct (String.eqb_spec k g) as [-> | Hkg]; simpl.
  - destruct (String.eqb g f); reflexivity.
  - rewrite IH. destruct (String.eqb_spec g f) as [-> | Hgf]; [| reflexivity].
    destruct (String.eqb_spec k f); [congruence | reflexivity].
Qed.

Lemma unit_eqb_spec : forall x y : unit, reflect (x = y) (unit_eqb x y).
Proof. intros [] []; constructor; reflexivity. Qed.

Lemma month_key_eqb_spec : forall a b, reflect (a = b) (month_key_eqb a b).
Proof.
  intros [[y1|] [m1|]] [[y2|] [m2|]]; simpl;
    repeat match goal with
    | |- context [Z.eqb ?x ?y] => destruct (Z.eqb_spec x y)
    end; simpl; constructor; congruence.
Qed.

Lemma sum_cond_app : forall t l1 l2,
  sum_cond t (l1 ++ l2) = sum_cond t l1 + sum_cond t l2.
Proof. intros t l1 l2; induction l1 as [| d l1 IH]; simpl; lia. Qed.

Lemma fold_sums_step : forall l e i,
  fold_left sums_step l (e, i) = (e + sum_cond "expense" l, i + sum_cond "income" l).
Proof.
  intro l; induction l as [| d l IH]; intros e i; simpl.
  - f_equal; lia.
  - unfold sums_step at 2; simpl; rewrite IH; f_equal; lia.
Qed.

Lemma fold_totals_step : forall l e i n,
  fold_left totals_step l (e, i, n) =
  (e + sum_cond "expense" l, i + sum_cond "income" l, n + Z.of_nat (List.length l)).
Proof.
  intro l; induction l as [| d l IH]; intros e i n; simpl.
  - f_equal; [f_equal |]; lia.
  - rewrite IH; f_equal; [f_equal |]; lia.
Qed.

Lemma fold_rank_step : forall l n a,
  fold_left rank_step l (n, a) = (n + Z.of_nat (List.length l), a + sum_amount l).
Proof.
  intro l; induction l as [| d l IH]; intros n a; simpl.
  - f_equal; lia.
  - unfold rank_step at 2; simpl; rewrite IH; f_equal; lia.
Qed.

(** [totalStats] has one row exactly when the collection is not empty. *)
Lemma totalStats_facet_eq : forall ds,
  totalStats_facet ds =
  match ds with
  | [] => []
  | _ :: _ => [mkTotalRow (sum_cond "expense" ds) (sum_cond "income" ds)
                          (Z.of_nat (List.length ds))]
  end.
Proof.
  intro ds; unfold totalStats_facet.
  assert (H : forall ds, Group.group unit_eqb (fun _ => tt) (0, 0, 0) totals_step ds =
                match ds with
                | [] => []
                | _ :: _ => [(tt, fold_left totals_step ds (0, 0, 0))]
                end).
  { clear ds; intro ds; induction ds as [| d ds IH] using rev_ind; [reflexivity |].
    unfold Group.group in *; rewrite fold_left_app; simpl; rewrite IH.
    destruct ds as [| d0 ds]; simpl; [reflexivity |].
    rewrite fold_left_app; reflexivity. }
  rewrite H; destruct ds as [| d ds]; [reflexivity |].
  rewrite fold_totals_step; reflexivity.
Qed.

Lemma map_result_Forall2 : forall {A B : Type} (f : A -> result B) l l',
  map_result f l = Ok l' -> Forall2 (fun x y => f x = Ok y) l l'.
Proof.
  intros A B f l; induction l as [| x l IH]; intros l' H; simpl in H.
  - inversion H; constructor.
  - destruct (f x) as [y |] eqn:Hx; simpl in H; [| discriminate].
    destruct (map_result f l) as [ys |] eqn:Hl; simpl in H; [| discriminate].
    inversion H; subst; constructor; [exact Hx | apply IH; reflexivity].
Qed.

Lemma map_result_Err : forall {A B : Type} (f : A -> result B) l x e,
  In x l -> f x = Err e -> exists e', map_result f l = Err e'.
Proof.
  intros A B f l; induction l as [| y l IH]; intros x e Hin Hx; [destruct Hin |].
  simpl; destruct Hin as [-> | Hin].
  - rewrite Hx; simpl; eauto.
  - destruct (f y) as [z |] eqn:Hy; simpl; [| eauto].
    destruct (IH x e Hin Hx) as [e' ->]; simpl; eauto.
Qed.

Lemma map_result_Ok : forall {A B : Type} (f : A -> result B) l,
  (forall x, In x l -> exists y, f x = Ok y) -> exists l', map_result f l = Ok l'.
Proof.
  intros A B f l; induction l as [| x l IH]; intro H; simpl; [eauto |].
  destruct (H x (or_introl eq_refl)) as [y ->]; simpl.
  destruct IH as [l' ->]; [intros z Hz; apply H; right; exact Hz |].
  simpl; eauto.
Qed.

Lemma Forall2_In_l : forall {A B : Type} (P : A -> B -> Prop) l l' x,
  Forall2 P l l' -> In x l -> exists y, In y l' /\ P x y.
Proof.
  intros A B P l l' x H; induction H as [| a b l l' Hab H IH]; intros Hin; [destruct Hin |].
  destruct Hin as [-> | Hin]; [exists b; split; [left |]; auto |].
  destruct (IH Hin) as [y [Hy Hxy]]; exists y; split; [right |]; auto.
Qed.

Lemma Forall2_In_r : forall {A B : Type} (P : A -> B -> Prop) l l' y,
  Forall2 P l l' -> In y l' -> exists x, In x l /\ P x y.
Proof.
  intros A B P l l' y H; induction H as [| a b l l' Hab H IH]; intros Hin; [destruct Hin |].
  destruct Hin as [-> | Hin]; [exists a; split; [left |]; auto |].
  destruct (IH Hin) as [x [Hx Hxy]]; exists x; split; [right |]; auto.
Qed.

Lemma Sorted_weaken : forall {A : Type} (R R' : A -> A -> Prop) (P : A -> Prop) l,
  Forall P l -> Sorted R l ->
  (forall x y, P x -> P y -> R x y -> R' x y) -> Sorted R' l.
Proof.
  intros A R R' P l HP HS HR; induction HS as [| x l HS IH Hhd]; [constructor |].
  inversion HP as [| ? ? Px Pl]; subst; constructor; [apply IH; exact Pl |].
  destruct Hhd as [| y l' Hxy]; constructor.
  inversion Pl; subst; apply HR; assumption.
Qed.

(** *** [categoryStats] *)

Lemma categoryStats_row : forall ds row,
  In row (categoryStats_facet ds) ->
  c_totalExpense row = sum_cond "expense" (in_category (c_id row) ds) /\
  c_totalIncome row = sum_cond "income" (in_category (c_id row) ds).
Proof.
  intros ds row Hin; unfold categoryStats_facet in Hin.
  apply in_map_iff in Hin as [[k [e i]] [<- Hg]].
  apply (Group.group_In _ value_eqb_spec) in Hg as [_ Ha].
  unfold Group.members in Ha; rewrite fold_sums_step in Ha.
  inversion Ha; subst; simpl; split; reflexivity.
Qed.

(** *** [monthlyStats] *)

Lemma add_parsedDate_spec : forall d d',
  add_parsedDate d = Ok d' ->
  month_key d' = record_month d /\ (forall t, cond_amount t d' = cond_amount t d).
Proof.
  intros d d' H; unfold add_parsedDate in H.
  destruct (dateFromString (get "date" d)) as [v |] eqn:Hv; simpl in H; [| discriminate].
  inversion H; subst d'; clear H; split.
  - unfold month_key, record_month; rewrite get_set_field; simpl.
    unfold dateFromString in Hv.
    destruct (get "date" d) as [[| b | z | s | h | y m dd | l | fs] |];
      try discriminate; try (inversion Hv; reflexivity).
    destruct (parse_ymd s) as [[[y m] dd] |]; inversion Hv; reflexivity.
  - intro t; unfold cond_amount, type_eq; rewrite !get_set_field; reflexivity.
Qed.

Lemma members_month : forall t ds ds' k,
  Forall2 (fun d d' => add_parsedDate d = Ok d') ds ds' ->
  sum_cond t (Group.members month_key_eqb month_key k ds') = sum_cond t (in_month k ds).
Proof.
  intros t ds ds' k H; induction H as [| d d' ds ds' Hd H IH]; [reflexivity |].
  destruct (add_parsedDate_spec _ _ Hd) as [Hk Hc].
  unfold Group.members, in_month in *; simpl; rewrite Hk.
  destruct (month_key_eqb k (record_month d)); simpl; rewrite ?Hc, IH; reflexivity.
Qed.

Lemma month_le_total : forall r s, month_le r s = false -> month_le s r = true.
Proof.
  intros [[y1|] [m1|] e1 i1] [[y2|] [m2|] e2 i2]; unfold month_le; simpl;
    repeat match goal with
    | |- context [Z.ltb ?x ?y] => destruct (Z.ltb_spec x y)
    | |- context [Z.eqb ?x ?y] => destruct (Z.eqb_spec x y)
    end; simpl; intro Hle; try reflexivity; try discriminate; lia.
Qed.

Lemma monthlyStats_inv : forall ds ms,
  monthlyStats_facet ds = Ok ms ->
  exists ds', Forall2 (fun d d' => add_parsedDate d = Ok d') ds ds' /\
    ms = Sort.sort_by month_le
           (map (fun g => let '((y, m), (e, i)) := g in mkMonthRow y m e i)
                (Group.group month_key_eqb month_key (0, 0) sums_step ds')).
Proof.
  intros ds ms H; unfold monthlyStats_facet in H.
  destruct (map_result add_parsedDate ds) as [ds' |] eqn:E; simpl in H; [| discriminate].
  exists ds'; split; [apply map_result_Forall2; exact E | inversion H; reflexivity].
Qed.

(** Each monthly row sums exactly the records of its month, and there is
    at least one such record. *)
Lemma monthlyStats_row : forall ds ms row,
  monthlyStats_facet ds = Ok ms -> In row ms ->
  m_totalExpense row = sum_cond "expense" (in_month (m_year row, m_month row) ds) /\
  m_totalIncome row = sum_cond "income" (in_month (m_year row, m_month row) ds) /\
  (exists d, In d ds /\ record_month d = (m_year row, m_month row)).
Proof.
  intros ds ms row H Hin.
  destruct (monthlyStats_inv _ _ H) as [ds' [HF ->]].
  apply (Permutation_in _ (Permutation_sym (Sort.sort_by_perm _ _))) in Hin.
  apply in_map_iff in Hin as [[[y m] [e i]] [<- Hg]].
  apply (Group.group_In _ month_key_eqb_spec) in Hg as [[d' [Hd' Hk]] Ha].
  rewrite fold_sums_step in Ha; inversion Ha; subst e i; simpl.
  rewrite !(members_month _ _ _ _ HF).
  split; [reflexivity | split; [reflexivity |]].
  destruct (Forall2_In_r _ _ _ _ HF Hd') as [d [Hd Hdd']].
  exists d; split; [exact Hd |].
  destruct (add_parsedDate_spec _ _ Hdd') as [Hk' _]; congruence.
Qed.

(** Every record's month has its row. *)
Lemma monthlyStats_complete : forall ds ms d,
  monthlyStats_facet ds = Ok ms -> In d ds ->
  exists row, In row ms /\ (m_year row, m_month row) = record_month d.
Proof.
  intros ds ms d H Hd.
  destruct (monthlyStats_inv _ _ H) as [ds' [HF ->]].
  destruct (Forall2_In_l _ _ _ _ HF Hd) as [d' [Hd' Hdd']].
  destruct (add_parsedDate_spec _ _ Hdd') as [Hk _].
  pose proof (Group.group_complete _ month_key_eqb_spec month_key (0, 0) sums_step _ _ Hd')
    as Hg.
  destruct (month_key d') as [y m] eqn:Ek.
  destruct (fold_left sums_step _ (0, 0)) as [e i].
  exists (mkMonthRow y m e i); split; [| simpl; congruence].
  apply (Permutation_in _ (Sort.sort_by_perm _ _)).
  apply in_map_iff; exists ((y, m), (e, i)); split; [reflexivity | exact Hg].
Qed.

Lemma monthlyStats_sorted : forall ds ms,
  monthlyStats_facet ds = Ok ms -> Sorted (fun r s => month_le r s = true) ms.
Proof.
  intros ds ms H; destruct (monthlyStats_inv _ _ H) as [ds' [_ ->]].
  apply (Sort.sort_by_sorted _ month_le_total).
Qed.

(** *** The [/finance-stats] response *)

Lemma finance_stats_inv : forall st r,
  finance_stats st = Ok r ->
  online st = true /\ docs st <> [] /\
  totalExpense r = sum_cond "expense" (docs st) /\
  totalIncome r = sum_cond "income" (docs st) /\
  totalTransactions r = Z.of_nat (List.length (docs st)) /\
  r_categoryStats r = categoryStats_facet (docs st) /\
  monthlyStats_facet (docs st) = Ok (r_monthlyStats r).
Proof.
  intros st r H; unfold finance_stats, finance_aggregate, find in H.
  destruct (online st) eqn:Hon; simpl in H; [| discriminate].
  destruct (monthlyStats_facet (docs st)) as [ms |] eqn:Hm; simpl in H; [| discriminate].
  unfold format_response in H; simpl in H; rewrite totalStats_facet_eq in H.
  destruct (docs st) as [| d ds] eqn:Hds; simpl in H; [discriminate |].
  inversion H; subst r; simpl.
  repeat split; try reflexivity; discriminate.
Qed.

(** *** The [/category-stats] response *)

Lemma rank_le_total : forall r s, rank_le r s = false -> rank_le s r = true.
Proof.
  intros r s; unfold rank_le; destruct (Z.leb_spec (totalAmount s) (totalAmount r));
    destruct (Z.leb_spec (totalAmount r) (totalAmount s)); intros; try reflexivity;
    try discriminate; lia.
Qed.

Lemma category_stats_inv : forall st e i,
  category_stats st = Ok (e, i) ->
  e = Sort.sort_by rank_le (rank_rows "expense" (docs st)) /\
  i = Sort.sort_by rank_le (rank_rows "income" (docs st)).
Proof.
  intros st e i H; unfold category_stats, rank_pipeline, find in H.
  destruct (online st); simpl in H; [| discriminate].
  inversion H; split; reflexivity.
Qed.

Lemma rank_rows_row : forall t ds row,
  In row (rank_rows t ds) ->
  categoryCount row = Z.of_nat (List.length (in_category (r_id row) (of_type t ds))) /\
  totalAmount row = sum_amount (in_category (r_id row) (of_type t ds)).
Proof.
  intros t ds row Hin; unfold rank_rows in Hin.
  apply in_map_iff in Hin as [[k [n a]] [<- Hg]].
  apply (Group.group_In _ value_eqb_spec) in Hg as [_ Ha].
  unfold Group.members in Ha; rewrite fold_rank_step in Ha.
  inversion Ha; subst; simpl; split; reflexivity.
Qed.

Lemma rank_rows_complete : forall t ds d,
  In d (of_type t ds) -> exists row, In row (rank_rows t ds) /\ r_id row = category_key d.
Proof.
  intros t ds d Hd.
  pose proof (Group.group_complete _ value_eqb_spec category_key (0, 0) rank_step _ _ Hd)
    as Hg.
  destruct (fold_left rank_step _ (0, 0)) as [n a].
  exists (mkRankRow (category_key d) n a); split; [| reflexivity].
  unfold rank_rows; apply in_map_iff; exists (category_key d, (n, a)); split;
    [reflexivity | exact Hg].
Qed.

(** *** Helpers for the claims *)

Lemma record_month_parses : forall d s y m dd,
  get "date" d = Some (VStr s) -> parse_ymd s = Some (y, m, dd) ->
  record_month d = (Some y, Some m).
Proof. intros d s y m dd Hd Hp; unfold record_month; rewrite Hd, Hp; reflexivity. Qed.

Lemma cond_amount_other : forall d,
  get "type" d <> Some (VStr "income") -> get "type" d <> Some (VStr "expense") ->
  cond_amount "income" d = 0 /\ cond_amount "expense" d = 0.
Proof.
  intros d Hi He; unfold cond_amount, type_eq.
  destruct (get "type" d) as [v |]; [| split; reflexivity].
  destruct (value_eqb_spec v (VStr "income")) as [-> | _]; [contradiction |].
  destruct (value_eqb_spec v (VStr "expense")) as [-> | _]; [contradiction |].
  split; reflexivity.
Qed.

Lemma sum_cond_skip : forall t (p : doc -> bool) ds1 d ds2,
  cond_amount t d = 0 ->
  sum_cond t (filter p (ds1 ++ d :: ds2)) = sum_cond t (filter p (ds1 ++ ds2)).
Proof.
  intros t p ds1 d ds2 H; rewrite !filter_app, !sum_cond_app; simpl.
  destruct (p d); simpl; lia.
Qed.

Lemma filter_true : forall (l : list doc), filter (fun _ => true) l = l.
Proof. intro l; induction l as [| x l IH]; simpl; congruence. Qed.

(** *** Helpers for the record routes *)



Lemma delete_first_absent : forall oid ds,
  existsb (has_id oid) ds = false -> delete_first oid ds = (ds, 0).
Proof.
  intros oid ds; induction ds as [| d ds IH]; simpl; [reflexivity |].
  destruct (has_id oid d); simpl; [discriminate |].
  intro H; rewrite IH; auto.
Qed.

Lemma update_first_found : forall oid sets ds d,
  List.find (has_id oid) ds = Some d ->
  has_id oid (apply_set sets d) = true ->
  exists ds' n, update_first oid sets ds = (ds', (1, n)) /\
    List.find (has_id oid) ds' = Some (apply_set sets d).
Proof.
  intros oid sets ds d; induction ds as [| d0 ds IH]; simpl; [discriminate |].
  destruct (has_id oid d0) eqn:E.
  - intros H Hset; inversion H; subst d0.
    eexists _, _; split; [reflexivity | simpl; rewrite Hset; reflexivity].
  - intros H Hset; destruct (IH H Hset) as (ds' & n & Hu & Hf).
    rewrite Hu; exists (d0 :: ds'), n; split; [reflexivity | simpl; rewrite E; exact Hf].
Qed.

Lemma get_apply_patch : forall f data d,
  In f mutable_fields ->
  get f (apply_set (patch_sets data) d) = Some (serialize (opt_get f data)).
Proof.
  intros f data d Hf; unfold apply_set, patch_sets; simpl.
  rewrite !get_set_field.
  destruct Hf as [<- | [<- | [<- | [<- | [<- | [<- | []]]]]]]; reflexivity.
Qed.

Lemma get_id_apply_patch : forall data d,
  get "_id" (apply_set (patch_sets data) d) = get "_id" d.
Proof.
  intros data d; unfold apply_set, patch_sets; simpl.
  rewrite !get_set_field; reflexivity.
Qed.

(** *** Helpers for the failure claims *)

Lemma find_existsb_false : forall (f : doc -> bool) l,
  existsb f l = false -> List.find f l = None.
Proof.
  intros f l; induction l as [| x l IH]; simpl; [reflexivity |].
  destruct (f x); simpl; [discriminate | exact IH].
Qed.

Lemma date_unparseable_fails : forall d,
  date_unparseable d -> exists e, add_parsedDate d = Err e.
Proof.
  intros d [Hp Ha]; unfold add_parsedDate, dateFromString.
  destruct (get "date" d) as [v |] eqn:Hd; [| exfalso; apply Ha; left; exact Hd].
  destruct v as [| b | z | s | h | y m dd | l | fs]; simpl; try (eexists; reflexivity).
  - exfalso; apply Ha; right; exact Hd.
  - destruct (parse_ymd s) as [[[y m] dd] |] eqn:Hs; simpl; [| eexists; reflexivity].
    exfalso; apply Hp; exists s, y, m, dd; split; assumption.
Qed.

Lemma date_ok_parses : forall d,
  date_parses d \/ date_absent d -> exists d', add_parsedDate d = Ok d'.
Proof.
  intros d [(s & y & m & dd & Hd & Hs) | [Hd | Hd]];
    unfold add_parsedDate, dateFromString; rewrite Hd; simpl;
    try rewrite Hs; eexists; reflexivity.
Qed.

Lemma record_month_absent : forall d, date_absent d -> record_month d = (None, None).
Proof. intros d [Hd | Hd]; unfold record_month; rewrite Hd; reflexivity. Qed.

End Facts.

(** ** The claims *)

Module Claims.
Import Bson Driver Agg Stats Server Reading Facts.

(** C1 (the empty store): [GET /finance-stats] on an empty collection does
    not answer zeros.  [$facet] outputs its one document with every facet
    empty, [totalStats[0]] is [undefined], reading [.totalExpense] of it
    throws a [TypeError], and the [catch] answers status 500. *)
Theorem finance_stats_empty_store :
  finance_aggregate (mkStore [] true) = Ok [mkFacets [] [] []] /\
  format_response [mkFacets [] [] []] = Err TypeError /\
  handle GetFinanceStats (mkStore [] true) =
    (mkStore [] true, Respond 500 (BError "Error fetching finance stats")).
Proof. repeat split; reflexivity. Qed.

(** C2 (monthly statistics): when every record's date parses under
    [%Y-%m-%d] (every strict [YYYY-MM-DD] date does), the [monthlyStats] of a [/finance-stats] answer are
    sorted ascending by (year, month); every row has a numeric year and
    month and its two totals are the conditional sums over exactly the
    records dated in that month; and every record's month has its row. *)
Theorem monthlyStats_sorted_and_summed : forall st r,
  (forall d, In d (docs st) -> date_parses d) ->
  finance_stats st = Ok r ->
  Sorted ym_le (r_monthlyStats r) /\
  (forall row, In row (r_monthlyStats r) ->
     exists y m, m_year row = Some y /\ m_month row = Some m /\
       m_totalExpense row = sum_cond "expense" (in_month (Some y, Some m) (docs st)) /\
       m_totalIncome row = sum_cond "income" (in_month (Some y, Some m) (docs st))) /\
  (forall d s y m dd, In d (docs st) ->
     get "date" d = Some (VStr s) -> parse_ymd s = Some (y, m, dd) ->
     exists row, In row (r_monthlyStats r) /\ m_year row = Some y /\ m_month row = Some m).
Proof.
  intros st r Hall Hr.
  destruct (finance_stats_inv _ _ Hr) as (_ & _ & _ & _ & _ & _ & Hm).
  assert (Hrow : forall row, In row (r_monthlyStats r) ->
            exists y m, m_year row = Some y /\ m_month row = Some m /\
              m_totalExpense row = sum_cond "expense" (in_month (Some y, Some m) (docs st)) /\
              m_totalIncome row = sum_cond "income" (in_month (Some y, Some m) (docs st))).
  { intros row Hin.
    destruct (monthlyStats_row _ _ _ Hm Hin) as (He & Hi & d & Hd & Hk).
    destruct (Hall d Hd) as (s & y & m & dd & Hs & Hp).
    rewrite (record_month_parses _ _ _ _ _ Hs Hp) in Hk; injection Hk as Hy Hmo.
    rewrite <- Hy, <- Hmo in He, Hi.
    exists y, m; repeat split; congruence. }
  split; [| split; [exact Hrow |]].
  - apply (Sorted_weaken (fun r s => month_le r s = true) ym_le
             (fun row => exists y m, m_year row = Some y /\ m_month row = Some m)).
    + apply Forall_forall; intros row Hin.
      destruct (Hrow row Hin) as (y & m & Hy & Hmo & _); eauto.
    + exact (monthlyStats_sorted _ _ Hm).
    + intros [y1 m1 e1 i1] [y2 m2 e2 i2] (a & b & Ha & Hb) (c & e & Hc & He) Hle;
        simpl in *; subst; unfold ym_le, month_le in *; simpl in *.
      destruct (Z.ltb_spec a c); [left; exact H |].
      destruct (Z.eqb_spec a c); [| discriminate]; right; split; [exact e0 |].
      destruct (Z.ltb_spec b e); [lia |]; destruct (Z.eqb_spec b e); [lia | discriminate].
  - intros d s y m dd Hd Hs Hp.
    destruct (monthlyStats_complete _ _ _ Hm Hd) as (row & Hin & Hk).
    rewrite (record_month_parses _ _ _ _ _ Hs Hp) in Hk; injection Hk as Hy Hmo.
    exists row; repeat split; congruence.
Qed.

Lemma monthlyStats_sorted_and_summed_witness :
  (forall d, In d (docs scenario_store) -> date_parses d) /\
  finance_stats scenario_store = Ok scenario_response /\
  Sorted ym_le (r_monthlyStats scenario_response).
Proof.
  assert (H1 : forall d, In d (docs scenario_store) -> date_parses d).
  { simpl; intros d [<- | [<- | []]]; unfold date_parses;
      do 4 eexists; split; reflexivity. }
  assert (H2 : finance_stats scenario_store = Ok scenario_response) by reflexivity.
  split; [exact H1 | split; [exact H2 |]].
  exact (proj1 (monthlyStats_sorted_and_summed _ _ H1 H2)).
Defined.

(** C3 (other types): a record whose [type] is neither ["income"] nor
    ["expense"] adds nothing to any [totalExpense] or [totalIncome] of a
    [/finance-stats] answer (the global totals, every category row, every
    monthly row equal the sums over the other records), yet it is counted
    in [totalTransactions]. *)
Theorem other_type_contributes_zero : forall st r ds1 d ds2,
  docs st = ds1 ++ d :: ds2 ->
  get "type" d <> Some (VStr "income") -> get "type" d <> Some (VStr "expense") ->
  finance_stats st = Ok r ->
  totalExpense r = sum_cond "expense" (ds1 ++ ds2) /\
  totalIncome r = sum_cond "income" (ds1 ++ ds2) /\
  totalTransactions r = Z.of_nat (List.length (ds1 ++ ds2)) + 1 /\
  (forall row, In row (r_categoryStats r) ->
     c_totalExpense row = sum_cond "expense" (in_category (c_id row) (ds1 ++ ds2)) /\
     c_totalIncome row = sum_cond "income" (in_category (c_id row) (ds1 ++ ds2))) /\
  (forall row, In row (r_monthlyStats r) ->
     m_totalExpense row = sum_cond "expense" (in_month (m_year row, m_month row) (ds1 ++ ds2)) /\
     m_totalIncome row = sum_cond "income" (in_month (m_year row, m_month row) (ds1 ++ ds2))).
Proof.
  intros st r ds1 d ds2 Hds Hi He Hr.
  destruct (cond_amount_other _ Hi He) as [Ci Ce].
  destruct (finance_stats_inv _ _ Hr) as (_ & _ & HE & HI & HT & HC & HM).
  rewrite Hds in HE, HI, HT, HC, HM.
  repeat split.
  - rewrite HE, <- (filter_true (ds1 ++ d :: ds2)), <- (filter_true (ds1 ++ ds2)).
    apply sum_cond_skip; exact Ce.
  - rewrite HI, <- (filter_true (ds1 ++ d :: ds2)), <- (filter_true (ds1 ++ ds2)).
    apply sum_cond_skip; exact Ci.
  - rewrite HT, !length_app; simpl; lia.
  - rewrite HC in H; destruct (categoryStats_row _ _ H) as [E _].
    rewrite E; apply sum_cond_skip; exact Ce.
  - rewrite HC in H; destruct (categoryStats_row _ _ H) as [_ I].
    rewrite I; apply sum_cond_skip; exact Ci.
  - destruct (monthlyStats_row _ _ _ HM H) as (E & _ & _).
    rewrite E; apply sum_cond_skip; exact Ce.
  - destruct (monthlyStats_row _ _ _ HM H) as (_ & I & _).
    rewrite I; apply sum_cond_skip; exact Ci.
Qed.

Lemma other_type_contributes_zero_witness :
  finance_stats mixed_store = Ok mixed_response /\
  totalTransactions mixed_response = Z.of_nat (List.length ([rec_food] ++ [rec_salary])) + 1.
Proof.
  assert (Hds : docs mixed_store = [rec_food] ++ rec_transfer :: [rec_salary]) by reflexivity.
  assert (Hi : get "type" rec_transfer <> Some (VStr "income")) by discriminate.
  assert (He : get "type" rec_transfer <> Some (VStr "expense")) by discriminate.
  assert (Hr : finance_stats mixed_store = Ok mixed_response) by reflexivity.
  split; [exact Hr |].
  exact (proj1 (proj2 (proj2 (other_type_contributes_zero _ _ _ _ _ Hds Hi He Hr)))).
Defined.

(** C4 (category rankings): each list of a [/category-stats] answer is
    sorted by descending [totalAmount]; each row counts and sums the
    records of its type (as [{ $match: { type: t } }] selects them) in its
    category; every category of such a record has its row.  Equal totals
    come in an order the model fixes and the server does not. *)
Theorem category_rankings_sorted : forall st e i t l,
  category_stats st = Ok (e, i) ->
  (t = "expense" /\ l = e) \/ (t = "income" /\ l = i) ->
  Sorted (fun r s => totalAmount s <= totalAmount r) l /\
  (forall row, In row l ->
     categoryCount row = Z.of_nat (List.length (in_category (r_id row) (of_type t (docs st)))) /\
     totalAmount row = sum_amount (in_category (r_id row) (of_type t (docs st)))) /\
  (forall d, In d (of_type t (docs st)) ->
     exists row, In row l /\ r_id row = category_key d).
Proof.
  intros st e i t l H Ht.
  destruct (category_stats_inv _ _ _ H) as [He Hi].
  assert (Hl : l = Sort.sort_by rank_le (rank_rows t (docs st)))
    by (destruct Ht as [[-> ->] | [-> ->]]; assumption).
  subst l; split; [| split].
  - apply (Sorted_weaken (fun r s => rank_le r s = true) _ (fun _ => True)).
    + apply Forall_forall; intros; exact I.
    + apply (Sort.sort_by_sorted _ rank_le_total).
    + intros r s _ _ Hle; unfold rank_le in Hle; apply Z.leb_le; exact Hle.
  - intros row Hin; apply rank_rows_row.
    apply (Permutation_in _ (Permutation_sym (Sort.sort_by_perm rank_le _))); exact Hin.
  - intros d Hd; destruct (rank_rows_complete _ _ _ Hd) as (row & Hin & Hk).
    exists row; split; [| exact Hk].
    apply (Permutation_in _ (Sort.sort_by_perm rank_le _)); exact Hin.
Qed.

Lemma category_rankings_sorted_witness :
  category_stats scenario_store =
    Ok ([mkRankRow (VStr "food") 1 100], [mkRankRow (VStr "salary") 1 50]) /\
  Sorted (fun r s => totalAmount s <= totalAmount r) [mkRankRow (VStr "food") 1 100].
Proof.
  assert (H : category_stats scenario_store =
    Ok ([mkRankRow (VStr "food") 1 100], [mkRankRow (VStr "salary") 1 50])) by reflexivity.
  split; [exact H |].
  exact (proj1 (category_rankings_sorted _ _ _ "expense" _ H (or_introl (conj eq_refl eq_refl)))).
Defined.

(** C10 (reads do not write): listing, fetching one record, and both
    statistics routes leave the store as it was. *)
Theorem reads_leave_store_unchanged : forall st id,
  fst (handle GetFinances st) = st /\
  fst (handle (GetFinance id) st) = st /\
  fst (handle GetFinanceStats st) = st /\
  fst (handle GetCategoryStats st) = st.
Proof.
  intros st id; unfold handle; repeat split.
  - destruct (find st); reflexivity.
  - destruct (ObjectId id) as [oid |]; [destruct (findOne st oid) |]; reflexivity.
  - destruct (finance_stats st); reflexivity.
  - destruct (category_stats st) as [[e i] |]; reflexivity.
Qed.

(** C5 (update replaces six fields): [PATCH /finance/:id] on a stored
    record writes all six mutable fields: a field the patch carries gets
    the patch's value, a field it lacks becomes [null]; the answer reports
    one matched document. *)
Theorem patch_replaces_six_fields : forall st id oid d data,
  online st = true -> ObjectId id = Ok oid ->
  List.find (has_id oid) (docs st) = Some d ->
  exists st' n d',
    handle (PatchFinance id data) st = (st', Respond 200 (BUpdateResult true 1 n)) /\
    List.find (has_id oid) (docs st') = Some d' /\
    (forall f, In f mutable_fields ->
       (forall v, opt_get f data = Some v -> get f d' = Some v) /\
       (opt_get f data = None -> get f d' = Some VNull)).
Proof.
  intros st id oid d data Hon Hid Hf.
  assert (Hset : has_id oid (apply_set (patch_sets data) d) = true).
  { pose proof (find_some _ _ Hf) as [_ Hd].
    unfold has_id in *; rewrite get_id_apply_patch; exact Hd. }
  destruct (update_first_found _ (patch_sets data) _ _ Hf Hset) as (ds' & n & Hu & Hf').
  exists (mkStore ds' true), n, (apply_set (patch_sets data) d).
  split; [| split; [exact Hf' |]].
  - unfold handle, updateOne; rewrite Hid, Hon, Hu; reflexivity.
  - intros f Hin; rewrite (get_apply_patch _ _ _ Hin); split.
    + intros v ->; reflexivity.
    + intros ->; reflexivity.
Qed.

Lemma patch_replaces_six_fields_witness :
  handle (PatchFinance "000000000000000000000001" (Some [("title", VStr "Lunch")]))
         scenario_store =
  (mkStore [[("_id", VOid "000000000000000000000001"); ("amount", VNull);
             ("type", VNull); ("category", VNull); ("date", VNull);
             ("title", VStr "Lunch"); ("description", VNull)]; rec_salary] true,
   Respond 200 (BUpdateResult true 1 1)) /\
  exists st' n d',
    handle (PatchFinance "000000000000000000000001" (Some [("title", VStr "Lunch")]))
           scenario_store = (st', Respond 200 (BUpdateResult true 1 n)) /\
    List.find (has_id (VOid "000000000000000000000001")) (docs st') = Some d'.
Proof.
  split; [reflexivity |].
  destruct (patch_replaces_six_fields scenario_store "000000000000000000000001"
              (VOid "000000000000000000000001") rec_food (Some [("title", VStr "Lunch")])
              eq_refl eq_refl eq_refl) as (st' & n & d' & H1 & H2 & _).
  exists st', n, d'; split; assumption.
Defined.

(** C6 (malformed ids), counterexample: [GET /finance/xyz] gets no
    client-error answer; [new ObjectId("xyz")] throws and the handler has
    no [catch]. *)
Lemma get_malformed_id_raises :
  handle (GetFinance "xyz") scenario_store = (scenario_store, Raise BSONError) /\
  (forall status b, snd (handle (GetFinance "xyz") scenario_store) <> Respond status b).
Proof. split; [reflexivity | intros status b H; vm_compute in H; discriminate]. Qed.

(** C6 (malformed ids), as the code behaves: for an id that is not 24 hex
    digits the handler throws [BSONError] out of [new ObjectId] before the
    store is asked, and answers nothing itself; a well-formed id with no
    record is answered with status 200 and [null]. *)
Theorem get_malformed_id_unanswered :
  (forall st id, is_oid_string id = false ->
     handle (GetFinance id) st = (st, Raise BSONError)) /\
  (forall st id oid, online st = true -> ObjectId id = Ok oid ->
     existsb (has_id oid) (docs st) = false ->
     handle (GetFinance id) st = (st, Respond 200 (BDoc None))).
Proof.
  split.
  - intros st id H; unfold handle, ObjectId; rewrite H; reflexivity.
  - intros st id oid Hon Hid Hno; unfold handle, findOne; rewrite Hid, Hon.
    rewrite (find_existsb_false _ _ Hno); reflexivity.
Qed.

Lemma get_malformed_id_unanswered_witness :
  is_oid_string "xyz" = false /\
  handle (GetFinance "xyz") scenario_store = (scenario_store, Raise BSONError) /\
  handle (GetFinance "0000000000000000000000ff") scenario_store =
    (scenario_store, Respond 200 (BDoc None)).
Proof.
  assert (H : is_oid_string "xyz" = false) by reflexivity.
  split; [exact H | split].
  - exact (proj1 get_malformed_id_unanswered _ _ H).
  - apply (proj2 get_malformed_id_unanswered _ _ (VOid "0000000000000000000000ff"));
      reflexivity.
Defined.




(** C8 (deleting an absent id): for a well-formed id that no record has,
    [DELETE /finance/:id] answers [deletedCount: 0] and the store is as it
    was. *)
Theorem delete_absent_id : forall st id oid,
  online st = true -> ObjectId id = Ok oid -> existsb (has_id oid) (docs st) = false ->
  handle (DeleteFinance id) st = (st, Respond 200 (BDeleteResult true 0)).
Proof.
  intros [ds on] id oid Hon Hid Hno; simpl in Hon, Hno; subst on.
  unfold handle, deleteOne; rewrite Hid; simpl.
  rewrite (delete_first_absent _ _ Hno); reflexivity.
Qed.

Lemma delete_absent_id_witness :
  handle (DeleteFinance "0000000000000000000000ff") scenario_store =
    (scenario_store, Respond 200 (BDeleteResult true 0)).
Proof.
  apply (delete_absent_id _ _ (VOid "0000000000000000000000ff")); reflexivity.
Defined.

(** C9 (aggregation failures), counterexample: a record whose date is
    [null] does not fail [/finance-stats]; it is summed into a monthly row
    whose year and month are [null]. *)
Lemma null_date_not_a_failure :
  handle GetFinanceStats (mkStore [rec_undated] true) =
    (mkStore [rec_undated] true,
     Respond 200 (BFinanceStats
       (mkFinanceResponse 10 0 1 [mkCatRow (VStr "misc") 10 0]
          [mkMonthRow None None 10 0]))).
Proof. reflexivity. Qed.

(** C9 (aggregation failures), as the code behaves: both statistics
    routes always answer, with their result or with status 500 and a fixed
    message; an unreachable store gives the 500 answer; a record whose date
    is present but not a string [$dateFromString] parses under [%Y-%m-%d]
    (see [parse_ymd]) fails the whole
    [/finance-stats] request with the 500 answer; and when every date
    parses or is missing or [null], a non-empty store is answered with its
    statistics, every record without a date being summed into the
    [(null, null)] monthly row. *)
Theorem aggregation_failures_answered :
  (forall st,
     (exists r, handle GetFinanceStats st = (st, Respond 200 (BFinanceStats r))) \/
     handle GetFinanceStats st = (st, Respond 500 (BError "Error fetching finance stats"))) /\
  (forall st,
     (exists e i, handle GetCategoryStats st = (st, Respond 200 (BCategoryStats e i))) \/
     handle GetCategoryStats st = (st, Respond 500 (BError "Error fetching category stats"))) /\
  (forall st, online st = false ->
     handle GetFinanceStats st = (st, Respond 500 (BError "Error fetching finance stats")) /\
     handle GetCategoryStats st = (st, Respond 500 (BError "Error fetching category stats"))) /\
  (forall st d, online st = true -> In d (docs st) -> date_unparseable d ->
     handle GetFinanceStats st = (st, Respond 500 (BError "Error fetching finance stats"))) /\
  (forall st, online st = true -> docs st <> [] ->
     (forall d, In d (docs st) -> date_parses d \/ date_absent d) ->
     exists r, handle GetFinanceStats st = (st, Respond 200 (BFinanceStats r)) /\
       (forall d, In d (docs st) -> date_absent d ->
          exists row, In row (r_monthlyStats r) /\ m_year row = None /\ m_month row = None)).
Proof.
  split; [| split; [| split; [| split]]].
  - intro st; unfold handle; destruct (finance_stats st) as [r |]; [left; eauto | right; reflexivity].
  - intro st; unfold handle; destruct (category_stats st) as [[e i] |];
      [left; eauto | right; reflexivity].
  - intros st Hoff; unfold handle, finance_stats, finance_aggregate, category_stats,
      rank_pipeline, find; rewrite Hoff; split; reflexivity.
  - intros st d Hon Hd Hu.
    destruct (date_unparseable_fails _ Hu) as [e He].
    destruct (map_result_Err _ _ _ _ Hd He) as [e' Hm].
    unfold handle, finance_stats, finance_aggregate, find; rewrite Hon; simpl.
    unfold monthlyStats_facet; rewrite Hm; reflexivity.
  - intros st Hon Hne Hall.
    destruct (map_result_Ok add_parsedDate (docs st)) as [ds' Hm].
    { intros d Hd; apply date_ok_parses, Hall, Hd. }
    assert (Hr : exists r, finance_stats st = Ok r).
    { unfold finance_stats, finance_aggregate, find; rewrite Hon; simpl.
      unfold monthlyStats_facet; rewrite Hm; simpl.
      unfold format_response; simpl; rewrite totalStats_facet_eq.
      destruct (docs st); [contradiction | eexists; reflexivity]. }
    destruct Hr as [r Hr]; exists r; split.
    + unfold handle; rewrite Hr; reflexivity.
    + intros d Hd Ha.
      destruct (finance_stats_inv _ _ Hr) as (_ & _ & _ & _ & _ & _ & HM).
      destruct (monthlyStats_complete _ _ _ HM Hd) as (row & Hin & Hk).
      rewrite (record_month_absent _ Ha) in Hk; injection Hk as Hy Hmo.
      exists row; repeat split; assumption.
Qed.

Lemma aggregation_failures_answered_witness :
  date_unparseable rec_bad_date /\
  handle GetFinanceStats (mkStore [rec_food; rec_bad_date] true) =
    (mkStore [rec_food; rec_bad_date] true,
     Respond 500 (BError "Error fetching finance stats")).
Proof.
  assert (Hu : date_unparseable rec_bad_date).
  { split.
    - intros (s & y & m & dd & Hd & Hs); simpl in Hd; inversion Hd; subst s; discriminate.
    - intros [Hd | Hd]; discriminate. }
  split; [exact Hu |].
  apply (proj1 (proj2 (proj2 (proj2 aggregation_failures_answered)))
           (mkStore [rec_food; rec_bad_date] true) rec_bad_date);
    [reflexivity | right; left; reflexivity | exact Hu].
Defined.

End Claims.

(** ** Further properties of the routes *)

Module ExtraFacts.
Import Bson Driver Agg Stats Server Reading Facts.

Lemma delete_first_split : forall oid ds1 d ds2,
  existsb (has_id oid) ds1 = false -> has_id oid d = true ->
  delete_first oid (ds1 ++ d :: ds2) = (ds1 ++ ds2, 1).
Proof.
  intros oid ds1 d ds2; induction ds1 as [| d0 ds1 IH]; simpl; intros H1 H2.
  - rewrite H2; reflexivity.
  - destruct (has_id oid d0); simpl in H1; [discriminate |].
    rewrite (IH H1 H2); reflexivity.
Qed.

Lemma update_first_absent : forall oid sets ds,
  existsb (has_id oid) ds = false -> update_first oid sets ds = (ds, (0, 0)).
Proof.
  intros oid sets ds; induction ds as [| d ds IH]; simpl; [reflexivity |].
  destruct (has_id oid d); simpl; [discriminate |].
  intro H; rewrite (IH H); reflexivity.
Qed.

Lemma update_first_split : forall oid sets ds1 d ds2,
  existsb (has_id oid) ds1 = false -> has_id oid d = true ->
  exists n, update_first oid sets (ds1 ++ d :: ds2) = (ds1 ++ apply_set sets d :: ds2, (1, n)).
Proof.
  intros oid sets ds1 d ds2; induction ds1 as [| d0 ds1 IH]; simpl; intros H1 H2.
  - rewrite H2; eexists; reflexivity.
  - destruct (has_id oid d0); simpl in H1; [discriminate |].
    destruct (IH H1 H2) as [n ->]; exists n; reflexivity.
Qed.

Lemma get_apply_patch_other : forall f data d,
  ~ In f mutable_fields -> get f (apply_set (patch_sets data) d) = get f d.
Proof.
  intros f data d Hf; unfold apply_set, patch_sets; simpl; rewrite !get_set_field.
  repeat match goal with
  | |- context [String.eqb ?g f] =>
      destruct (String.eqb_spec g f) as [Heq | _];
      [exfalso; apply Hf; rewrite <- Heq; simpl; tauto |]
  end.
  reflexivity.
Qed.

Lemma set_field_noop : forall f v d, get f d = Some v -> set_field f v d = d.
Proof.
  intros f v d; induction d as [| [k w] d IH]; simpl; [discriminate |].
  destruct (String.eqb_spec k f) as [-> | Hne]; intro H.
  - inversion H; reflexivity.
  - rewrite (IH H); reflexivity.
Qed.

Lemma apply_set_noop : forall sets d,
  (forall kv, In kv sets -> get (fst kv) d = Some (snd kv)) -> apply_set sets d = d.
Proof.
  intros sets; induction sets as [| [f v] sets IH]; intros d H; simpl; [reflexivity |].
  rewrite (set_field_noop f v d (H (f, v) (or_introl eq_refl))).
  apply IH; intros kv Hkv; apply H; right; exact Hkv.
Qed.

Lemma apply_patch_twice : forall data d,
  apply_set (patch_sets data) (apply_set (patch_sets data) d) = apply_set (patch_sets data) d.
Proof.
  intros data d; apply apply_set_noop; intros [f v] Hin.
  assert (Hf : In f mutable_fields /\ v = serialize (opt_get f data)).
  { unfold patch_sets in Hin; simpl in Hin.
    repeat (destruct Hin as [Hin | Hin]; [inversion Hin; subst; split; [simpl; tauto | reflexivity] |]).
    destruct Hin. }
  destruct Hf as [Hf ->]; apply get_apply_patch; exact Hf.
Qed.

Lemma update_first_twice : forall oid data ds ds' m n,
  update_first oid (patch_sets data) ds = (ds', (m, n)) ->
  update_first oid (patch_sets data) ds' = (ds', (m, 0)).
Proof.
  intros oid data ds; induction ds as [| d ds IH]; intros ds' m n H; cbn [update_first] in H.
  - inversion H; reflexivity.
  - destruct (has_id oid d) eqn:E.
    + remember (apply_set (patch_sets data) d) as d1 eqn:Hd1.
      injection H as <- <- <-; cbn [update_first].
      assert (Hid : has_id oid d1 = true)
        by (unfold has_id in *; rewrite Hd1, get_id_apply_patch; exact E).
      assert (Htw : apply_set (patch_sets data) d1 = d1)
        by (rewrite Hd1; apply apply_patch_twice).
      rewrite Hid, Htw, value_eqb_refl; reflexivity.
    + destruct (update_first oid (patch_sets data) ds) as [r [m' n']] eqn:Er.
      inversion H; subst; cbn [update_first]; rewrite E, (IH _ _ _ eq_refl); reflexivity.
Qed.

Lemma lower_hex_idem : forall c, lower_hex (lower_hex c) = lower_hex c.
Proof. intros [[] [] [] [] [] [] [] []]; reflexivity. Qed.

Lemma lower_hex_is_hex : forall c, is_hex c = true -> is_hex (lower_hex c) = true.
Proof. intros [[] [] [] [] [] [] [] []]; try reflexivity; discriminate. Qed.

Lemma sumZ_perm : forall l l', Permutation l l' -> sumZ l = sumZ l'.
Proof. intros l l' H; induction H; simpl; lia. Qed.

Lemma sumZ_app : forall l1 l2, sumZ (l1 ++ l2) = sumZ l1 + sumZ l2.
Proof. intros l1 l2; induction l1; simpl; lia. Qed.

(** A [$group] splits any additive measure of its input among its
    groups. *)
Section GroupSum.
Context {D K A : Type}.
Variable eqb : K -> K -> bool.
Variable key : D -> K.
Variable init : A.
Variable step : A -> D -> A.
Variable mu : A -> Z.
Variable w : D -> Z.
Hypothesis mu_init : mu init = 0.
Hypothesis mu_step : forall a d, mu (step a d) = mu a + w d.

Lemma sum_accumulate : forall k d gs,
  sumZ (map (fun g => mu (snd g)) (Group.accumulate eqb init step k d gs)) =
  sumZ (map (fun g => mu (snd g)) gs) + w d.
Proof.
  intros k d gs; induction gs as [| [k' a] gs IH]; simpl.
  - rewrite mu_step, mu_init; lia.
  - destruct (eqb k' k); simpl; [rewrite mu_step | rewrite IH]; lia.
Qed.

Lemma sum_group : forall ds,
  sumZ (map (fun g => mu (snd g)) (Group.group eqb key init step ds)) = sumZ (map w ds).
Proof.
  intro ds; induction ds as [| d ds IH] using rev_ind; [reflexivity |].
  unfold Group.group in *; rewrite fold_left_app; simpl.
  rewrite sum_accumulate, IH, map_app, sumZ_app; simpl; lia.
Qed.

End GroupSum.

Lemma sumZ_cond : forall t ds, sumZ (map (cond_amount t) ds) = sum_cond t ds.
Proof. intros t ds; induction ds; simpl; lia. Qed.

Lemma sumZ_amount : forall ds, sumZ (map (fun d => sum_arg (get "amount" d)) ds) = sum_amount ds.
Proof. intro ds; induction ds; simpl; lia. Qed.

Lemma sumZ_ones : forall (ds : list doc), sumZ (map (fun _ => 1) ds) = Z.of_nat (List.length ds).
Proof. intro ds; induction ds as [| d ds IH]; [reflexivity |]; cbn [map sumZ List.length]; lia. Qed.

Lemma sum_cond_parsed : forall t ds ds',
  Forall2 (fun d d' => add_parsedDate d = Ok d') ds ds' -> sum_cond t ds' = sum_cond t ds.
Proof.
  intros t ds ds' H; induction H as [| d d' ds ds' Hd H IH]; simpl; [reflexivity |].
  destruct (add_parsedDate_spec _ _ Hd) as [_ Hc]; rewrite Hc, IH; reflexivity.
Qed.

Lemma group_nil_iff : forall {K A : Type} eqb (eqb_spec : forall x y : K, reflect (x = y) (eqb x y))
  key (init : A) step (ds : list doc),
  Group.group eqb key init step ds = [] <-> ds = [].
Proof.
  intros K A eqb eqb_spec key init step ds; split; [| intros ->; reflexivity].
  destruct ds as [| d ds]; [reflexivity |]; intro H.
  pose proof (Group.group_complete _ eqb_spec key init step (d :: ds) d (or_introl eq_refl)) as Hin.
  rewrite H in Hin; destruct Hin.
Qed.

Lemma has_id_get : forall oid d, has_id oid d = true -> get "_id" d = Some oid.
Proof.
  intros oid d; unfold has_id; destruct (get "_id" d) as [v |]; [| discriminate].
  intro H; apply value_eqb_eq in H; subst v; reflexivity.
Qed.

Lemma existsb_has_id : forall oid ds,
  existsb (has_id oid) ds = false -> ~ In (Some oid) (map (get "_id") ds).
Proof.
  intros oid ds; induction ds as [| d ds IH]; simpl; [tauto |].
  unfold has_id at 1; intro H; apply orb_false_iff in H as [H1 H2].
  intros [Hd | Hin]; [| exact (IH H2 Hin)].
  rewrite Hd, value_eqb_refl in H1; discriminate.
Qed.

Lemma delete_first_cases : forall oid ds,
  (existsb (has_id oid) ds = false /\ delete_first oid ds = (ds, 0)) \/
  (exists ds1 d ds2, existsb (has_id oid) ds1 = false /\ has_id oid d = true /\
     ds = ds1 ++ d :: ds2 /\ delete_first oid ds = (ds1 ++ ds2, 1)).
Proof.
  intros oid ds; induction ds as [| d ds IH]; simpl; [left; auto |].
  destruct (has_id oid d) eqn:Hd.
  - right; exists [], d, ds; auto.
  - destruct IH as [[He ->] | (ds1 & d1 & ds2 & He & Hd1 & -> & ->)].
    + left; auto.
    + right; exists (d :: ds1), d1, ds2; simpl; rewrite Hd; auto.
Qed.

Lemma update_first_ids : forall oid data ds,
  map (get "_id") (fst (update_first oid (patch_sets data) ds)) = map (get "_id") ds.
Proof.
  intros oid data ds; induction ds as [| d ds IH]; [reflexivity |]; cbn [update_first].
  destruct (has_id oid d).
  - cbn [fst map]; rewrite get_id_apply_patch; reflexivity.
  - destruct (update_first oid (patch_sets data) ds) as [r n]; cbn [fst map] in *; rewrite IH;
      reflexivity.
Qed.

Lemma insertOne_ids : forall st d gen st' id,
  ids_ok (docs st) -> insertOne st d gen = Ok (st', id) -> ids_ok (docs st').
Proof.
  intros st d gen st' id [HF HN] H; unfold insertOne in H.
  destruct (online st); [| discriminate].
  set (i := match get "_id" d with Some VNull | None => VOid gen | Some v => v end) in H.
  destruct (existsb (has_id i) (docs st)) eqn:Ex; [discriminate |].
  inversion H; subst st'; clear H; cbn [docs]; unfold ids_ok; rewrite map_app; cbn [map].
  replace (get "_id" (("_id", i) :: remove_field "_id" d)) with (Some i) by reflexivity.
  split.
  - apply Forall_app; split; [exact HF |]; constructor; [discriminate | constructor].
  - eapply Permutation_NoDup; [apply Permutation_cons_append |].
    constructor; [apply existsb_has_id; exact Ex | exact HN].
Qed.

Lemma deleteOne_ids : forall st oid st' n,
  ids_ok (docs st) -> deleteOne st oid = Ok (st', n) -> ids_ok (docs st').
Proof.
  intros st oid st' n [HF HN] H; unfold deleteOne in H.
  destruct (online st); [| discriminate].
  destruct (delete_first_cases oid (docs st)) as [[_ E] | (ds1 & d & ds2 & _ & _ & Hs & E)];
    rewrite E in H; inversion H; subst st'; simpl; [split; assumption |].
  rewrite Hs, map_app in HF, HN; cbn [map] in HF, HN; unfold ids_ok; cbn [docs];
  rewrite map_app; split.
  - apply Forall_app in HF as [HF1 HF2]; inversion HF2; apply Forall_app; auto.
  - eapply NoDup_remove_1; exact HN.
Qed.

Lemma updateOne_ids : forall st oid data st' m n,
  ids_ok (docs st) -> updateOne st oid (patch_sets data) = Ok (st', (m, n)) ->
  ids_ok (docs st').
Proof.
  intros st oid data st' m n Hok H; unfold updateOne in H.
  destruct (online st); [| discriminate].
  pose proof (update_first_ids oid data (docs st)) as Hi.
  destruct (update_first oid (patch_sets data) (docs st)) as [ds nn]; simpl in Hi.
  inversion H; subst st'; unfold ids_ok; simpl; rewrite Hi; exact Hok.
Qed.

End ExtraFacts.

Module Extras.
Import Bson Driver Agg Stats Server Reading Facts ExtraFacts.

(** Deleting a stored record: [DELETE /finance/:id] removes the first
    record with that id, keeps the others in order, and answers
    [deletedCount: 1]. *)
Theorem delete_present_id : forall st id oid ds1 d ds2,
  online st = true -> ObjectId id = Ok oid -> docs st = ds1 ++ d :: ds2 ->
  existsb (has_id oid) ds1 = false -> has_id oid d = true ->
  handle (DeleteFinance id) st = (mkStore (ds1 ++ ds2) true, Respond 200 (BDeleteResult true 1)).
Proof.
  intros st id oid ds1 d ds2 Hon Hid Hds H1 H2.
  unfold handle, deleteOne; rewrite Hid, Hon, Hds, (delete_first_split _ _ _ _ H1 H2).
  reflexivity.
Qed.

Lemma delete_present_id_witness :
  handle (DeleteFinance "000000000000000000000001") scenario_store =
    (mkStore [rec_salary] true, Respond 200 (BDeleteResult true 1)).
Proof.
  apply (delete_present_id _ _ (VOid "000000000000000000000001") [] rec_food [rec_salary]);
    reflexivity.
Defined.

(** Creating a record: a successful [POST /finance] appends the stored
    document ([_id] first, the generated id when the body has none or a
    [null] one) at the end of the collection, so [GET /finance] then lists
    the earlier records followed by it. *)
Theorem create_appends : forall st body gen st' id,
  handle (PostFinance body gen) st = (st', Respond 200 (BInsertResult true id)) ->
  (match get "_id" body with None | Some VNull => id = VOid gen | Some v => id = v end) /\
  handle GetFinances st' =
    (st', Respond 200 (BDocs (docs st ++ [("_id", id) :: remove_field "_id" body]))).
Proof.
  intros st body gen st' id H; unfold handle, insertOne in H.
  destruct (online st); [| discriminate].
  set (i := match get "_id" body with None | Some VNull => VOid gen | Some v => v end) in H.
  destruct (existsb (has_id i) (docs st)); [discriminate |].
  inversion H; subst st' id; split.
  - subst i; destruct (get "_id" body) as [[] |]; reflexivity.
  - reflexivity.
Qed.

Lemma create_appends_witness :
  handle GetFinances
    (mkStore [rec_food; rec_salary;
              [("_id", VOid "00000000000000000000000a"); ("amount", VNum 5)]] true) =
    (mkStore [rec_food; rec_salary;
              [("_id", VOid "00000000000000000000000a"); ("amount", VNum 5)]] true,
     Respond 200 (BDocs [rec_food; rec_salary;
              [("_id", VOid "00000000000000000000000a"); ("amount", VNum 5)]])).
Proof.
  exact (proj2 (create_appends scenario_store [("amount", VNum 5)] "00000000000000000000000a"
                  _ _ eq_refl)).
Defined.

(** A taken [_id]: [POST /finance] with a body whose [_id] is already
    stored is refused with a duplicate-key error the handler does not
    catch, and the store is unchanged. *)
Theorem create_taken_id : forall st body gen v,
  online st = true -> get "_id" body = Some v -> v <> VNull ->
  existsb (has_id v) (docs st) = true ->
  handle (PostFinance body gen) st = (st, Raise DuplicateKey).
Proof.
  intros st body gen v Hon Hb Hv Hex; unfold handle, insertOne; rewrite Hon, Hb.
  destruct v; try (rewrite Hex; reflexivity); contradiction.
Qed.

Lemma create_taken_id_witness :
  handle (PostFinance rec_food "00000000000000000000000a") scenario_store =
    (scenario_store, Raise DuplicateKey).
Proof.
  apply (create_taken_id _ _ _ (VOid "000000000000000000000001"));
    [reflexivity | reflexivity | discriminate | reflexivity].
Defined.

(** Patching an absent record: for a well-formed id no record has,
    [PATCH /finance/:id] matches and modifies nothing and inserts nothing. *)
Theorem patch_absent_id : forall st id oid data,
  online st = true -> ObjectId id = Ok oid -> existsb (has_id oid) (docs st) = false ->
  handle (PatchFinance id data) st = (st, Respond 200 (BUpdateResult true 0 0)).
Proof.
  intros [ds on] id oid data Hon Hid Hno; simpl in Hon, Hno; subst on.
  unfold handle, updateOne; rewrite Hid; simpl.
  rewrite (update_first_absent _ _ _ Hno); reflexivity.
Qed.

Lemma patch_absent_id_witness :
  handle (PatchFinance "0000000000000000000000ff" None) scenario_store =
    (scenario_store, Respond 200 (BUpdateResult true 0 0)).
Proof.
  apply (patch_absent_id _ _ (VOid "0000000000000000000000ff")); reflexivity.
Defined.

(** Malformed ids on the writing routes: [DELETE] and [PATCH] with an id
    that is not 24 hex digits throw [BSONError] and change nothing. *)
Theorem malformed_id_writes_raise : forall st id data,
  is_oid_string id = false ->
  handle (DeleteFinance id) st = (st, Raise BSONError) /\
  handle (PatchFinance id data) st = (st, Raise BSONError).
Proof.
  intros st id data H; unfold handle, ObjectId; rewrite H; split; reflexivity.
Qed.

Lemma malformed_id_writes_raise_witness :
  handle (DeleteFinance "xyz") scenario_store = (scenario_store, Raise BSONError).
Proof. exact (proj1 (malformed_id_writes_raise scenario_store "xyz" None eq_refl)). Defined.

(** An unreachable store: the record routes have no [catch], so every
    one of them throws [StoreUnavailable] (a malformed id throws first)
    and changes nothing; only the two statistics routes answer 500. *)
Theorem offline_record_routes_raise : forall st body gen id data,
  online st = false -> is_oid_string id = true ->
  handle GetFinances st = (st, Raise StoreUnavailable) /\
  handle (PostFinance body gen) st = (st, Raise StoreUnavailable) /\
  handle (GetFinance id) st = (st, Raise StoreUnavailable) /\
  handle (DeleteFinance id) st = (st, Raise StoreUnavailable) /\
  handle (PatchFinance id data) st = (st, Raise StoreUnavailable).
Proof.
  intros st body gen id data Hoff Hid.
  unfold handle, find, insertOne, findOne, deleteOne, updateOne, ObjectId.
  rewrite Hoff, Hid; repeat split.
Qed.

Lemma offline_record_routes_raise_witness :
  handle (GetFinance "000000000000000000000001") (mkStore [rec_food] false) =
    (mkStore [rec_food] false, Raise StoreUnavailable).
Proof.
  exact (proj1 (proj2 (proj2 (offline_record_routes_raise (mkStore [rec_food] false) []
           "00000000000000000000000a" "000000000000000000000001" None eq_refl eq_refl)))).
Defined.

(** A patch touches one record: [PATCH /finance/:id] rewrites only the
    first record with that id, leaves every other record in place, and
    keeps that record's fields other than the six (its [_id] among them). *)
Theorem patch_changes_only_match : forall st id oid data ds1 d ds2,
  online st = true -> ObjectId id = Ok oid -> docs st = ds1 ++ d :: ds2 ->
  existsb (has_id oid) ds1 = false -> has_id oid d = true ->
  (exists n, handle (PatchFinance id data) st =
     (mkStore (ds1 ++ apply_set (patch_sets data) d :: ds2) true,
      Respond 200 (BUpdateResult true 1 n))) /\
  (forall f, ~ In f mutable_fields -> get f (apply_set (patch_sets data) d) = get f d).
Proof.
  intros st id oid data ds1 d ds2 Hon Hid Hds H1 H2; split.
  - destruct (update_first_split oid (patch_sets data) _ _ ds2 H1 H2) as [n Hu].
    exists n; unfold handle, updateOne; rewrite Hid, Hon, Hds, Hu; reflexivity.
  - intros f Hf; apply get_apply_patch_other; exact Hf.
Qed.

Lemma patch_changes_only_match_witness :
  get "_id" (apply_set (patch_sets None) rec_salary) = Some (VOid "000000000000000000000002") /\
  exists n, handle (PatchFinance "000000000000000000000002" None) scenario_store =
    (mkStore ([rec_food] ++ apply_set (patch_sets None) rec_salary :: []) true,
     Respond 200 (BUpdateResult true 1 n)).
Proof.
  destruct (patch_changes_only_match scenario_store "000000000000000000000002"
              (VOid "000000000000000000000002") None [rec_food] rec_salary []
              eq_refl eq_refl eq_refl eq_refl eq_refl) as [Hh Ho].
  split; [| exact Hh].
  rewrite Ho; [reflexivity | simpl; intuition discriminate].
Defined.

(** Patching twice: repeating the same [PATCH /finance/:id] right after
    it leaves the store as the first one left it and reports no modified
    document. *)
Theorem patch_idempotent : forall st id data st1 m n,
  handle (PatchFinance id data) st = (st1, Respond 200 (BUpdateResult true m n)) ->
  handle (PatchFinance id data) st1 = (st1, Respond 200 (BUpdateResult true m 0)).
Proof.
  intros st id data st1 m n H; unfold handle, updateOne in *.
  destruct (ObjectId id) as [oid |]; [| discriminate].
  destruct (online st); [| discriminate].
  destruct (update_first oid (patch_sets data) (docs st)) as [ds' [m' n']] eqn:Eu.
  inversion H; subst; simpl.
  rewrite (update_first_twice _ _ _ _ _ _ Eu); reflexivity.
Qed.

Lemma patch_idempotent_witness :
  handle (PatchFinance "000000000000000000000001" (Some [("title", VStr "Lunch")]))
    (mkStore [[("_id", VOid "000000000000000000000001"); ("amount", VNull);
               ("type", VNull); ("category", VNull); ("date", VNull);
               ("title", VStr "Lunch"); ("description", VNull)]; rec_salary] true) =
  (mkStore [[("_id", VOid "000000000000000000000001"); ("amount", VNull);
             ("type", VNull); ("category", VNull); ("date", VNull);
             ("title", VStr "Lunch"); ("description", VNull)]; rec_salary] true,
   Respond 200 (BUpdateResult true 1 0)).
Proof.
  apply (patch_idempotent scenario_store _ _ _ 1 1); reflexivity.
Defined.

(** ObjectId round trip: the hex string of an ObjectId built from a
    request id (upper- or lower-case) builds the same ObjectId again, so
    the id an insert acknowledges can be used in the URL as it is. *)
Theorem ObjectId_roundtrip : forall id h,
  ObjectId id = Ok (VOid h) -> ObjectId h = Ok (VOid h).
Proof.
  intros id h H; unfold ObjectId in *.
  destruct (is_oid_string id) eqn:E; [| discriminate].
  inversion H; subst h; clear H.
  unfold is_oid_string in *; rewrite list_ascii_of_string_of_list_ascii.
  apply andb_prop in E as [Hl Hx].
  rewrite length_map, Hl, map_map; simpl.
  replace (forallb is_hex (map lower_hex (list_ascii_of_string id))) with true.
  - f_equal; f_equal; f_equal; apply map_ext; intro c; apply lower_hex_idem.
  - symmetry; apply forallb_forall; intros c Hc.
    apply in_map_iff in Hc as [c0 [<- Hc0]].
    apply lower_hex_is_hex; apply (proj1 (forallb_forall _ _) Hx); exact Hc0.
Qed.

Lemma ObjectId_roundtrip_witness :
  ObjectId "0123456789ABCDEF01234567" = Ok (VOid "0123456789abcdef01234567") /\
  ObjectId "0123456789abcdef01234567" = Ok (VOid "0123456789abcdef01234567").
Proof.
  assert (H : ObjectId "0123456789ABCDEF01234567" = Ok (VOid "0123456789abcdef01234567"))
    by reflexivity.
  split; [exact H | exact (ObjectId_roundtrip _ _ H)].
Defined.

(** The breakdowns add up: in a [/finance-stats] answer the
    [totalExpense] (and [totalIncome]) of the category rows, and likewise
    of the monthly rows, sum to the global [totalExpense] (and
    [totalIncome]). *)
Theorem breakdowns_sum_to_totals : forall st r,
  finance_stats st = Ok r ->
  sumZ (map c_totalExpense (r_categoryStats r)) = totalExpense r /\
  sumZ (map c_totalIncome (r_categoryStats r)) = totalIncome r /\
  sumZ (map m_totalExpense (r_monthlyStats r)) = totalExpense r /\
  sumZ (map m_totalIncome (r_monthlyStats r)) = totalIncome r.
Proof.
  intros st r Hr.
  destruct (finance_stats_inv _ _ Hr) as (_ & _ & HE & HI & _ & HC & HM).
  destruct (monthlyStats_inv _ _ HM) as (ds' & HF & Hms).
  rewrite HE, HI, HC, Hms; clear HE HI HC HM Hms.
  unfold categoryStats_facet; rewrite !map_map.
  repeat split.
  - rewrite <- sumZ_cond, <- (sum_group value_eqb category_key (0, 0) sums_step fst
                                (cond_amount "expense")); [| reflexivity | reflexivity].
    f_equal; apply map_ext; intros [k [e i]]; reflexivity.
  - rewrite <- sumZ_cond, <- (sum_group value_eqb category_key (0, 0) sums_step snd
                                (cond_amount "income")); [| reflexivity | reflexivity].
    f_equal; apply map_ext; intros [k [e i]]; reflexivity.
  - rewrite <- (sumZ_perm _ _ (Permutation_map _ (Sort.sort_by_perm month_le _))), map_map.
    rewrite <- (sum_cond_parsed _ _ _ HF), <- sumZ_cond,
      <- (sum_group month_key_eqb month_key (0, 0) sums_step fst
            (cond_amount "expense")); [| reflexivity | reflexivity].
    f_equal; apply map_ext; intros [[y m] [e i]]; reflexivity.
  - rewrite <- (sumZ_perm _ _ (Permutation_map _ (Sort.sort_by_perm month_le _))), map_map.
    rewrite <- (sum_cond_parsed _ _ _ HF), <- sumZ_cond,
      <- (sum_group month_key_eqb month_key (0, 0) sums_step snd
            (cond_amount "income")); [| reflexivity | reflexivity].
    f_equal; apply map_ext; intros [[y m] [e i]]; reflexivity.
Qed.

Lemma breakdowns_sum_to_totals_witness :
  finance_stats mixed_store = Ok mixed_response /\
  sumZ (map m_totalExpense (r_monthlyStats mixed_response)) = 100.
Proof.
  assert (H : finance_stats mixed_store = Ok mixed_response) by reflexivity.
  split; [exact H |].
  exact (proj1 (proj2 (proj2 (breakdowns_sum_to_totals _ _ H)))).
Defined.

(** The rankings account for every matched record: in a
    [/category-stats] answer each list has one row per category, its
    [categoryCount]s sum to the number of records of that type, and its
    [totalAmount]s sum to their amounts. *)
Theorem rankings_account_for_records : forall st e i t l,
  category_stats st = Ok (e, i) ->
  (t = "expense" /\ l = e) \/ (t = "income" /\ l = i) ->
  NoDup (map r_id l) /\
  sumZ (map categoryCount l) = Z.of_nat (List.length (of_type t (docs st))) /\
  sumZ (map totalAmount l) = sum_amount (of_type t (docs st)).
Proof.
  intros st e i t l H Ht.
  destruct (category_stats_inv _ _ _ H) as [He Hi].
  assert (Hl : l = Sort.sort_by rank_le (rank_rows t (docs st)))
    by (destruct Ht as [[-> ->] | [-> ->]]; assumption).
  subst l; clear H Ht He Hi.
  pose proof (Permutation_map r_id (Sort.sort_by_perm rank_le (rank_rows t (docs st)))) as P1.
  pose proof (Permutation_map categoryCount (Sort.sort_by_perm rank_le (rank_rows t (docs st))))
    as P2.
  pose proof (Permutation_map totalAmount (Sort.sort_by_perm rank_le (rank_rows t (docs st))))
    as P3.
  unfold rank_rows in *; rewrite map_map in P1, P2, P3.
  split; [| split].
  - apply (Permutation_NoDup P1).
    replace (map _ _) with (map fst (Group.group value_eqb category_key (0, 0) rank_step
                                       (filter (match_type t) (docs st)))).
    + apply (Group.NoDup_keys_group _ value_eqb_spec).
    + apply map_ext; intros [k [n a]]; reflexivity.
  - rewrite <- (sumZ_perm _ _ P2); unfold of_type; rewrite <- sumZ_ones.
    rewrite <- (sum_group value_eqb category_key (0, 0) rank_step fst (fun _ => 1));
      [| reflexivity | reflexivity].
    f_equal; apply map_ext; intros [k [n a]]; reflexivity.
  - rewrite <- (sumZ_perm _ _ P3); unfold of_type; rewrite <- sumZ_amount.
    rewrite <- (sum_group value_eqb category_key (0, 0) rank_step snd
                  (fun d => sum_arg (get "amount" d))); [| reflexivity | reflexivity].
    f_equal; apply map_ext; intros [k [n a]]; reflexivity.
Qed.

Lemma rankings_account_for_records_witness :
  category_stats scenario_store =
    Ok ([mkRankRow (VStr "food") 1 100], [mkRankRow (VStr "salary") 1 50]) /\
  sumZ (map categoryCount [mkRankRow (VStr "food") 1 100]) =
    Z.of_nat (List.length (of_type "expense" (docs scenario_store))).
Proof.
  assert (H : category_stats scenario_store =
    Ok ([mkRankRow (VStr "food") 1 100], [mkRankRow (VStr "salary") 1 50])) by reflexivity.
  split; [exact H |].
  exact (proj1 (proj2 (rankings_account_for_records _ _ _ "expense" _ H
                         (or_introl (conj eq_refl eq_refl))))).
Defined.

(** One row per key: the category rows of a [/finance-stats] answer have
    distinct categories, and its monthly rows distinct (year, month)
    pairs. *)
Theorem finance_rows_distinct : forall st r,
  finance_stats st = Ok r ->
  NoDup (map c_id (r_categoryStats r)) /\
  NoDup (map (fun row => (m_year row, m_month row)) (r_monthlyStats r)).
Proof.
  intros st r Hr.
  destruct (finance_stats_inv _ _ Hr) as (_ & _ & _ & _ & _ & HC & HM).
  destruct (monthlyStats_inv _ _ HM) as (ds' & _ & Hms).
  rewrite HC, Hms; split.
  - unfold categoryStats_facet; rewrite map_map.
    replace (map _ _) with (map fst (Group.group value_eqb category_key (0, 0) sums_step
                                       (docs st))).
    + apply (Group.NoDup_keys_group _ value_eqb_spec).
    + apply map_ext; intros [k [e i]]; reflexivity.
  - eapply Permutation_NoDup; [apply Permutation_map, Sort.sort_by_perm |].
    rewrite map_map.
    replace (map _ _) with (map fst (Group.group month_key_eqb month_key (0, 0) sums_step ds')).
    + apply (Group.NoDup_keys_group _ month_key_eqb_spec).
    + apply map_ext; intros [[y m] [e i]]; reflexivity.
Qed.

Lemma finance_rows_distinct_witness :
  finance_stats mixed_store = Ok mixed_response /\
  NoDup (map c_id (r_categoryStats mixed_response)).
Proof.
  assert (H : finance_stats mixed_store = Ok mixed_response) by reflexivity.
  split; [exact H | exact (proj1 (finance_rows_distinct _ _ H))].
Defined.

(** Empty rankings: a list of a [/category-stats] answer is empty exactly
    when no record has that type, so an empty collection gives two empty
    lists rather than an error. *)
Theorem rankings_empty_iff : forall st e i,
  category_stats st = Ok (e, i) ->
  (e = [] <-> of_type "expense" (docs st) = []) /\
  (i = [] <-> of_type "income" (docs st) = []).
Proof.
  intros st e i H; destruct (category_stats_inv _ _ _ H) as [-> ->].
  assert (Hs : forall t, Sort.sort_by rank_le (rank_rows t (docs st)) = [] <->
                         of_type t (docs st) = []).
  { intro t; rewrite <- (group_nil_iff value_eqb value_eqb_spec category_key (0, 0) rank_step).
    split; intro Hn.
    - pose proof (Permutation_length (Sort.sort_by_perm rank_le (rank_rows t (docs st)))) as Hl.
      rewrite Hn in Hl; unfold rank_rows in Hl; rewrite length_map in Hl.
      destruct (Group.group _ _ _ _ _); [reflexivity | discriminate].
    - apply Permutation_nil; apply Permutation_sym; eapply perm_trans;
        [apply Permutation_sym, Sort.sort_by_perm |].
      unfold rank_rows, of_type in *; rewrite Hn; reflexivity. }
  split; apply Hs.
Qed.

Lemma rankings_empty_iff_witness :
  category_stats (mkStore [] true) = Ok ([], []) /\
  of_type "expense" (docs (mkStore [] true)) = [].
Proof.
  assert (H : category_stats (mkStore [] true) = Ok ([], [])) by reflexivity.
  split; [exact H | apply (proj1 (proj1 (rankings_empty_iff _ _ _ H))); reflexivity].
Defined.

(** The count agrees with the list: [totalTransactions] of a
    [/finance-stats] answer is the length of what [GET /finance] lists
    for the same store. *)
Theorem totalTransactions_is_list_length : forall st r,
  finance_stats st = Ok r ->
  exists ds, handle GetFinances st = (st, Respond 200 (BDocs ds)) /\
             Z.of_nat (List.length ds) = totalTransactions r.
Proof.
  intros st r Hr.
  destruct (finance_stats_inv _ _ Hr) as (Hon & _ & _ & _ & HT & _ & _).
  exists (docs st); split; [unfold handle, find; rewrite Hon; reflexivity | symmetry; exact HT].
Qed.

Lemma totalTransactions_is_list_length_witness :
  exists ds, handle GetFinances mixed_store = (mixed_store, Respond 200 (BDocs ds)) /\
             Z.of_nat (List.length ds) = totalTransactions mixed_response.
Proof. apply totalTransactions_is_list_length; reflexivity. Defined.

(** Every route keeps the [_id] index: if each stored document has an
    [_id] and no two share one, the same holds after any request. *)
Theorem ids_ok_preserved : forall req st,
  ids_ok (docs st) -> ids_ok (docs (fst (handle req st))).
Proof.
  intros req st Hok; destruct req as [| d gen | | id | id | id data | |]; simpl.
  - exact Hok.
  - destruct (insertOne st d gen) as [[st' id] | e] eqn:E; simpl;
      [exact (insertOne_ids _ _ _ _ _ Hok E) | exact Hok].
  - destruct (find st); exact Hok.
  - destruct (ObjectId id) as [oid |]; [destruct (findOne st oid) |]; exact Hok.
  - destruct (ObjectId id) as [oid |]; [| exact Hok].
    destruct (deleteOne st oid) as [[st' n] | e] eqn:E; simpl;
      [exact (deleteOne_ids _ _ _ _ Hok E) | exact Hok].
  - destruct (ObjectId id) as [oid |]; [| exact Hok].
    destruct (updateOne st oid (patch_sets data)) as [[st' [m n]] | e] eqn:E; simpl;
      [exact (updateOne_ids _ _ _ _ _ _ Hok E) | exact Hok].
  - destruct (finance_stats st); exact Hok.
  - destruct (category_stats st) as [[e i] |]; exact Hok.
Qed.

Lemma ids_ok_preserved_witness :
  ids_ok (docs scenario_store) /\
  ids_ok (docs (fst (handle (PostFinance [("amount", VNum 7)] "000000000000000000000003")
                           scenario_store))).
Proof.
  assert (H : ids_ok (docs scenario_store)).
  { split; simpl.
    - repeat constructor; discriminate.
    - repeat constructor; simpl; intuition discriminate. }
  split; [exact H | exact (ids_ok_preserved _ _ H)].
Defined.

(** Deleting is final: with unique [_id]s, once [DELETE /finance/:id] has
    answered, [GET /finance/:id] answers [null] for that id. *)
Theorem delete_then_get : forall st id st' n,
  ids_ok (docs st) ->
  handle (DeleteFinance id) st = (st', Respond 200 (BDeleteResult true n)) ->
  handle (GetFinance id) st' = (st', Respond 200 (BDoc None)).
Proof.
  intros st id st' n [_ HN] H; simpl in H |- *.
  destruct (ObjectId id) as [oid |]; [| discriminate].
  unfold deleteOne in H; destruct (online st); [| discriminate].
  destruct (delete_first_cases oid (docs st))
    as [[Ex E] | (ds1 & d & ds2 & Ex & Hd & Hs & E)]; rewrite E in H; inversion H; subst st';
    unfold findOne; simpl; rewrite find_existsb_false; try reflexivity; [exact Ex |].
  rewrite existsb_app, Ex; simpl.
  destruct (existsb (has_id oid) ds2) eqn:E2; [exfalso | reflexivity].
  apply existsb_exists in E2 as (d2 & Hin & Hd2).
  rewrite Hs, map_app in HN; simpl in HN; rewrite (has_id_get _ _ Hd) in HN.
  apply NoDup_remove_2 in HN; apply HN, in_or_app; right.
  rewrite <- (has_id_get _ _ Hd2); apply in_map; exact Hin.
Qed.

Lemma delete_then_get_witness :
  ids_ok (docs scenario_store) /\
  handle (DeleteFinance "000000000000000000000001") scenario_store =
    (mkStore [rec_salary] true, Respond 200 (BDeleteResult true 1)) /\
  handle (GetFinance "000000000000000000000001") (mkStore [rec_salary] true) =
    (mkStore [rec_salary] true, Respond 200 (BDoc None)).
Proof.
  assert (H : ids_ok (docs scenario_store)).
  { split; simpl.
    - repeat constructor; discriminate.
    - repeat constructor; simpl; intuition discriminate. }
  assert (Hd : handle (DeleteFinance "000000000000000000000001") scenario_store =
    (mkStore [rec_salary] true, Respond 200 (BDeleteResult true 1))) by reflexivity.
  split; [exact H | split; [exact Hd | exact (delete_then_get _ _ _ _ H Hd)]].
Defined.

End Extras.
